(** * GitHub profile statistics generator: a shallow embedding

    This development embeds [generate_stats.py] (class
    [GitHubStatsGenerator]) and proves properties of its request loop,
    its language sampling and its aggregation.

    Conventions of the embedding.

    - The JSON entities the script reads are records holding the fields the
      script accesses (the script itself does no schema validation).
    - Python dictionaries are insertion-ordered association lists with
      unique keys ([dict]); Python sets are [gset string].
    - The outside world is a [World]: the stream of clock readings and,
      for each endpoint, the outcome of the n-th GET issued by the run.
      Since the script is sequential and deterministic, every server
      behaviour is such a stream.
    - Effects are threaded through a state-and-exception monad [M]; every
      GET, sleep, printed line and file write is appended to a trace.
    - True division and [time.time()] yield floats in Python; they are
      idealised here as exact rationals ([Q]).
    - The date parser of the library and the file system of the machine
      are parameters that may fail; the exceptions they raise are not
      caught by the script. *)

From Stdlib Require Import ZArith QArith Qfield Qround String Ascii List Bool Lia.
From Stdlib Require Import Permutation Sorted.
From stdpp Require Import base gmap sets list strings.

Close Scope Q_scope.
Open Scope string_scope.
Open Scope list_scope.
Open Scope Z_scope.

(** ** Entities *)

Record Repo := mkRepo {
  repo_name : string;
  repo_private : bool;
  repo_stargazers_count : Z;
  repo_forks_count : Z;
  repo_watchers_count : Z;
  repo_size : Z;
  repo_fork : bool
}.

Record User := mkUser {
  user_login : string;
  user_name : option string;
  user_bio : option string;
  user_blog : option string;
  user_email : option string;
  user_location : option string;
  user_twitter_username : option string;
  user_created_at : string;
  user_public_repos : Z;
  user_followers : Z;
  user_following : Z
}.

(** The body of the profile endpoint: an object with the profile fields,
    or the empty object [{}], which Python treats as false. *)
Inductive UserJson :=
| UserEmpty
| UserObj (u : User).

(** Insertion-ordered dictionary with string keys. *)
Definition dict (V : Type) : Type := list (string * V).

(** ** Exceptions, results and the trace *)

(** The exceptions the script can meet; all are instances of Python's
    [Exception]. *)
Inductive Exn :=
| ConnectionError (msg : string)
| HTTPError (status : Z)
| ValueError (what : string)
| ZeroDivisionError
| OSError (msg : string).

(** How a computation ends: with a value, with an exception, or not
    within the iterations allowed to [while True]. *)
Inductive Result (A : Type) :=
| Ok (a : A)
| Raise (e : Exn)
| Timeout.
Arguments Ok {A} a.
Arguments Raise {A} e.
Arguments Timeout {A}.

(** Query parameters: [None] or a dictionary of strings and integers. *)
Inductive PVal :=
| PStr (s : string)
| PInt (z : Z).

Definition Params : Type := option (list (string * PVal)).

(** The lines the script prints: the rate-limit notice, the error report
    of [make_request], the fixed messages of [run], its count of
    repositories found and the three lines of its summary. *)
Inductive Line :=
| LRateLimit (wait_time : Z)
| LError (url : string) (e : Exn)
| LText (s : string)
| LFound (n : nat)
| LItem (n : Z) (what : string).

(** What the script does to the outside world. *)
Inductive Event :=
| EvGet (url : string) (params : Params)
| EvSleep (secs : Z)
| EvPrint (l : Line)
| EvWrite (path content : string).

(** ** HTTP responses *)

(** The text of the [X-RateLimit-Reset] header, classified by what
    Python's [int()] does with it. *)
Inductive HeaderValue :=
| IntText (z : Z)
| BadText (s : string).

(** A response whose JSON body, when it has one, decodes to an [A];
    [json_body = None] is a body on which [response.json()] raises. *)
Record Response (A : Type) := mkResponse {
  status_code : Z;
  text : string;
  x_ratelimit_reset : option HeaderValue;
  json_body : option A
}.
Arguments mkResponse {A}.
Arguments status_code {A}.
Arguments text {A}.
Arguments x_ratelimit_reset {A}.
Arguments json_body {A}.

(** [session.get] raises a transport exception or returns a response. *)
Inductive Outcome (A : Type) :=
| Transport (msg : string)
| Reply (r : Response A).
Arguments Transport {A} msg.
Arguments Reply {A} r.

Definition LangMap : Type := dict Z.

(** [clock n] is the n-th reading of [time.time()]; [user_api n],
    [repos_api n] and [langs_api n] are what the server does when the n-th
    GET of the run is addressed to the profile, the repository list or a
    language map. *)
Record World := mkWorld {
  clock : nat -> Q;
  user_api : nat -> Outcome UserJson;
  repos_api : nat -> Outcome (list Repo);
  langs_api : nat -> Outcome LangMap
}.

(** ** The monad *)

(** The number of GETs issued and of clock readings taken so far, and
    the events so far, latest first. *)
Record State := mkState {
  gets : nat;
  ticks : nat;
  trace : list Event
}.

Definition initial : State := mkState 0 0 [].

Definition M (A : Type) : Type := State -> Result A * State.

Definition ret {A} (a : A) : M A := fun s => (Ok a, s).

Definition bind {A B} (m : M A) (k : A -> M B) : M B :=
  fun s =>
    match m s with
    | (Ok a, s') => k a s'
    | (Raise e, s') => (Raise e, s')
    | (Timeout, s') => (Timeout, s')
    end.

Definition raise {A} (e : Exn) : M A := fun s => (Raise e, s).

Definition timeout {A} : M A := fun s => (Timeout, s).

Definition lift {A} (r : Result A) : M A := fun s => (r, s).

(** [try: m except Exception as e: h e] *)
Definition try_except {A} (m : M A) (h : Exn -> M A) : M A :=
  fun s =>
    match m s with
    | (Raise e, s') => h e s'
    | r => r
    end.

Definition emit (ev : Event) : M unit :=
  fun s => (Ok tt, mkState (gets s) (ticks s) (ev :: trace s)).

Declare Scope monad_scope.
Delimit Scope monad_scope with monad.
Notation "x <- m ;; k" := (bind m (fun x => k))
  (at level 100, m at next level, right associativity) : monad_scope.
Notation "m ;;; k" := (bind m (fun _ => k))
  (at level 100, right associativity) : monad_scope.
Open Scope monad_scope.

(** ** Library primitives *)

Definition print (l : Line) : M unit := emit (EvPrint l).

Definition time_sleep (secs : Z) : M unit := emit (EvSleep secs).

Section Run.

Variable w : World.
Variable username : string.

(** [time.time()] *)
Definition time_time : M Q :=
  fun s => (Ok (clock w (ticks s)), mkState (gets s) (S (ticks s)) (trace s)).

(** [self.session.get(url, params=params)] *)
Definition session_get {A} (api : nat -> Outcome A) (url : string)
    (params : Params) : M (Response A) :=
  fun s =>
    let s' := mkState (S (gets s)) (ticks s) (EvGet url params :: trace s) in
    match api (gets s) with
    | Transport msg => (Raise (ConnectionError msg), s')
    | Reply r => (Ok r, s')
    end.

(** [int(x)] on a float: truncation towards zero. *)
Definition int_of_float (q : Q) : Z := Z.quot (Qnum q) (Zpos (Qden q)).

(** [int(response.headers.get('X-RateLimit-Reset', dflt))] *)
Definition int_of_header (h : option HeaderValue) (dflt : Q) : Result Z :=
  match h with
  | Some (IntText z) => Ok z
  | Some (BadText s) => Raise (ValueError s)
  | None => Ok (int_of_float dflt)
  end.

(** [response.raise_for_status()] of the requests library: an HTTPError
    for the client and server error classes. *)
Definition raise_for_status {A} (r : Response A) : M unit :=
  if (400 <=? status_code r) && (status_code r <? 600)
  then raise (HTTPError (status_code r))
  else ret tt.

(** [response.json()] *)
Definition response_json {A} (r : Response A) : M A :=
  match json_body r with
  | Some a => ret a
  | None => raise (ValueError "json")
  end.

(** [s.lower()], on ASCII text. *)
Definition lower_char (c : ascii) : ascii :=
  let n := nat_of_ascii c in
  if (65 <=? n)%nat && (n <=? 90)%nat then ascii_of_nat (n + 32) else c.

Fixpoint lower (s : string) : string :=
  match s with
  | EmptyString => EmptyString
  | String c s' => String (lower_char c) (lower s')
  end.

(** [needle in hay] *)
Fixpoint contains (needle hay : string) : bool :=
  String.prefix needle hay ||
  match hay with
  | EmptyString => false
  | String _ hay' => contains needle hay'
  end.

Definition is_rate_limited {A} (r : Response A) : bool :=
  (status_code r =? 403) && contains "rate limit" (lower (text r)).

Definition make_request {A} (api : nat -> Outcome A) (url : string)
    (params : Params) : M (option A) :=
  try_except
    (response <- session_get api url params ;;
     response <-
       (if is_rate_limited response then
          dflt <- time_time ;;
          reset_time <- lift (int_of_header (x_ratelimit_reset response)
                                            (dflt + 60)%Q) ;;
          now <- time_time ;;
          let wait_time := Z.max (reset_time - int_of_float now) 60 in
          print (LRateLimit wait_time) ;;;
          time_sleep wait_time ;;;
          session_get api url params
        else ret response) ;;
     raise_for_status response ;;;
     data <- response_json response ;;
     ret (Some data))
    (fun e => print (LError url e) ;;; ret None).

(** ** Dictionaries and Python built-ins *)

Fixpoint dict_get {V} (k : string) (d : dict V) : option V :=
  match d with
  | [] => None
  | (k', v) :: d' => if String.eqb k k' then Some v else dict_get k d'
  end.

(** [d[k] = f(d[k])] on a [defaultdict]: an existing key keeps its
    position, a new key is appended. *)
Fixpoint dict_upd {V} (k : string) (f : option V -> V) (d : dict V) : dict V :=
  match d with
  | [] => [(k, f None)]
  | (k', v) :: d' =>
      if String.eqb k k' then (k', f (Some v)) :: d'
      else (k', v) :: dict_upd k f d'
  end.

Definition keys {V} (d : dict V) : list string := map fst d.

Definition py_sum (l : list Z) : Z := fold_left Z.add l 0.

Definition rbind {A B} (r : Result A) (k : A -> Result B) : Result B :=
  match r with
  | Ok a => k a
  | Raise e => Raise e
  | Timeout => Timeout
  end.

Notation "x <~ r ;; k" := (rbind r (fun x => k))
  (at level 100, r at next level, right associativity) : monad_scope.

(** [a / b] on integers. *)
Definition py_truediv (a b : Z) : Result Q :=
  if b =? 0 then Raise ZeroDivisionError
  else Ok (inject_Z a / inject_Z b)%Q.

(** [max(l, key=key)]: the first element whose key is maximal. *)
Definition py_max_by {A} (key : A -> Z) (l : list A) : Result A :=
  match l with
  | [] => Raise (ValueError "max() arg is an empty sequence")
  | x :: l' =>
      Ok (fold_left (fun best y => if key best <? key y then y else best) l' x)
  end.

Fixpoint result_map {A B} (f : A -> Result B) (l : list A) : Result (list B) :=
  match l with
  | [] => Ok []
  | x :: l' => y <~ f x ;; ys <~ result_map f l' ;; Ok (y :: ys)
  end.

(** [sorted(items, key=lambda x: x[1], reverse=True)]: a stable sort,
    largest value first, equal values in their original order. *)
Fixpoint insert_desc {K} (x : K * Q) (l : list (K * Q)) : list (K * Q) :=
  match l with
  | [] => [x]
  | y :: l' =>
      if Qle_bool (snd y) (snd x) then x :: y :: l' else y :: insert_desc x l'
  end.

Definition sorted_desc {K} (l : list (K * Q)) : list (K * Q) :=
  fold_right insert_desc [] l.

(** ** Fetching *)

Definition user_url : string := "https://api.github.com/users/" +:+ username.

Definition repos_url : string :=
  "https://api.github.com/users/" +:+ username +:+ "/repos".

Definition languages_url (repo : Repo) : string :=
  "https://api.github.com/repos/" +:+ username +:+ "/" +:+ repo_name repo
    +:+ "/languages".

Definition repos_params (page : Z) : Params :=
  Some [("type", PStr "owner"); ("sort", PStr "updated");
        ("per_page", PInt 100); ("page", PInt page)].

Definition get_user_info : M (option UserJson) :=
  make_request (user_api w) user_url None.

(** [not data] for a page: [None] and the empty list are false. *)
Definition page_items (data : option (list Repo)) : list Repo :=
  match data with
  | Some l => l
  | None => []
  end.

(** The [while True] loop of [get_repositories]; [fuel] bounds the number
    of iterations and running out of it is [Timeout]. *)
Fixpoint repositories_loop (fuel : nat) (repos : list Repo) (page : Z)
    : M (list Repo) :=
  match fuel with
  | O => timeout
  | S fuel' =>
      data <- make_request (repos_api w) repos_url (repos_params page) ;;
      match data with
      | None | Some [] => ret repos
      | Some data =>
          let repos := repos ++ data in
          if (length data <? 100)%nat then ret repos
          else repositories_loop fuel' repos (page + 1)
      end
  end.

Definition get_repositories (fuel : nat) : M (list Repo) :=
  repositories_loop fuel [] 1.

(** The body of the inner [for lang, bytes_count in lang_data.items()]. *)
Definition add_language (repo : Repo)
    (acc : dict Z * dict (gset string)) (item : string * Z)
    : dict Z * dict (gset string) :=
  let '(languages, language_repos) := acc in
  let '(lang, bytes_count) := item in
  (dict_upd lang (fun o => default 0 o + bytes_count) languages,
   dict_upd lang (fun o => default ∅ o ∪ {[repo_name repo]}) language_repos).

Fixpoint languages_loop (rs : list Repo)
    (acc : dict Z * dict (gset string)) : M (dict Z * dict (gset string)) :=
  match rs with
  | [] => ret acc
  | repo :: rest =>
      if repo_fork repo then languages_loop rest acc
      else
        lang_data <- make_request (langs_api w) (languages_url repo) None ;;
        match lang_data with
        | None | Some [] => languages_loop rest acc
        | Some lang_data =>
            languages_loop rest (fold_left (add_language repo) lang_data acc)
        end
  end.

(** The second component lists each set in the order of [elements];
    Python leaves the order of [list(v)] unspecified. *)
Definition get_language_stats (repos : list Repo)
    : M (dict Z * dict (list string)) :=
  acc <- languages_loop (firstn 30 repos) ([], []) ;;
  ret (fst acc, map (fun kv => (fst kv, elements (snd kv))) (snd acc)).

(** ** Aggregation *)

Record Stats := mkStats {
  total_repos : nat;
  public_repos : nat;
  total_stars : Z;
  total_forks : Z;
  total_watchers : Z;
  total_size : Z;
  followers : Z;
  following : Z;
  original_repos : nat;
  forked_repos : nat;
  avg_stars_per_repo : Q;
  most_starred_repo : string;
  most_starred_stars : Z
}.

Definition calculate_advanced_stats (user : User) (repos : list Repo)
    : Result Stats :=
  let total_stars := py_sum (map repo_stargazers_count repos) in
  let original_repos := List.filter (fun r => negb (repo_fork r)) repos in
  let forked_repos := List.filter (fun r => repo_fork r) repos in
  avg <~ py_truediv total_stars
           (Z.max (Z.of_nat (length original_repos)) 1) ;;
  most_starred_repo <~
    (match repos with
     | [] => Ok "None"
     | _ => r <~ py_max_by repo_stargazers_count repos ;; Ok (repo_name r)
     end) ;;
  most_starred_stars <~
    (match repos with
     | [] => Ok 0
     | _ => r <~ py_max_by repo_stargazers_count repos ;;
            Ok (repo_stargazers_count r)
     end) ;;
  Ok {| total_repos := length repos;
        public_repos := length (List.filter (fun r => negb (repo_private r)) repos);
        total_stars := total_stars;
        total_forks := py_sum (map repo_forks_count repos);
        total_watchers := py_sum (map repo_watchers_count repos);
        total_size := py_sum (map repo_size repos);
        followers := user_followers user;
        following := user_following user;
        original_repos := length original_repos;
        forked_repos := length forked_repos;
        avg_stars_per_repo := avg;
        most_starred_repo := most_starred_repo;
        most_starred_stars := most_starred_stars |}.

(** ** Rendering *)

(** [s.replace('Z', '+00:00')] *)
Fixpoint replace_Z (s : string) : string :=
  match s with
  | EmptyString => EmptyString
  | String c s' =>
      if Ascii.eqb c "Z"%char then "+00:00" +:+ replace_Z s'
      else String c (replace_Z s')
  end.

(** The language percentages computed at the head of
    [generate_modern_readme]. *)
Definition lang_percentages (languages : dict Z) : Result (dict Q) :=
  let total_bytes := py_sum (map snd languages) in
  if 0 <? total_bytes then
    result_map
      (fun item => q <~ py_truediv (snd item) total_bytes ;;
                   Ok (fst item, (q * 100)%Q))
      languages
  else Ok [].

Definition top_languages (lang_percentages : dict Q) : dict Q :=
  firstn 8 (sorted_desc lang_percentages).

(** [datetime.fromisoformat(s).strftime('%B %Y')], the one expression of
    the f-string that can fail on the data of a profile: a [ValueError] on
    text that is not an ISO date. The parser belongs to the library and is
    taken as a parameter. *)
Variable format_joined : string -> Result string.

(** The text of the f-string of [generate_modern_readme], social links
    included, given the date of joining as formatted above: it reads the
    user name, the profile and the statistics, and none of the language
    data; its text is not modelled. *)
Variable template : string -> User -> Stats -> string -> string.

Definition generate_modern_readme (user : User) (stats : Stats)
    (languages : dict Z) (lang_repos : dict (list string)) : Result string :=
  lang_percentages <~ lang_percentages languages ;;
  let top_languages := top_languages lang_percentages in
  joined <~ format_joined (replace_Z (user_created_at user)) ;;
  Ok (template username user stats joined).

(** ** Main flow *)

(** What [open(path, 'w')] followed by [f.write(content)] does on the
    machine of the run: nothing to report, or an [OSError]. *)
Variable disk : string -> string -> Result unit.

(** [[with open(path, 'w', encoding='utf-8') as f: f.write(content)]]; the
    trace records the writes that completed. *)
Definition write_file (path content : string) : M unit :=
  lift (disk path content) ;;;
  emit (EvWrite path content).

Definition run (fuel : nat) : M bool :=
  print (LText "🚀 Starting GitHub Profile Stats Generation...") ;;;
  print (LText "📊 Fetching user information...") ;;;
  user <- get_user_info ;;
  match user with
  | None | Some UserEmpty =>
      print (LText "❌ Failed to fetch user information") ;;;
      ret false
  | Some (UserObj user) =>
      print (LText "📚 Fetching repositories...") ;;;
      repos <- get_repositories fuel ;;
      match repos with
      | [] =>
          print (LText "❌ Failed to fetch repositories") ;;;
          ret false
      | _ =>
          print (LFound (length repos)) ;;;
          print (LText "🔍 Analyzing language usage...") ;;;
          langs <- get_language_stats repos ;;
          print (LText "📈 Calculating advanced statistics...") ;;;
          stats <- lift (calculate_advanced_stats user repos) ;;
          print (LText "📝 Generating README content...") ;;;
          readme_content <-
            lift (generate_modern_readme user stats (fst langs) (snd langs)) ;;
          print (LText "💾 Writing README.md...") ;;;
          write_file "README.md" readme_content ;;;
          print (LText "✅ Profile README generated successfully!") ;;;
          print (LText "📊 Stats Summary:") ;;;
          print (LItem (Z.of_nat (total_repos stats)) "repositories") ;;;
          print (LItem (total_stars stats) "total stars") ;;;
          print (LItem (Z.of_nat (length (fst langs)))
                       "programming languages") ;;;
          ret true
      end
  end.

End Run.

(** * Contribution statistics

    [get_contribution_stats] reads the event feed of the user. The year of
    an event is obtained with [datetime.fromisoformat], a library parser
    that is taken as a parameter here, as is the current year read from
    [datetime.now()]. The server's answers for the event feed are a stream
    of their own, indexed like those of a [World]. *)

Record ActivityEvent := mkActivityEvent {
  event_created_at : string
}.

(** [[x for x in l if p(x)]], where [p] may raise. *)
Fixpoint result_filter {A} (p : A -> Result bool) (l : list A)
    : Result (list A) :=
  match l with
  | [] => Ok []
  | x :: l' =>
      rbind (p x) (fun keep =>
      rbind (result_filter p l') (fun rest =>
      Ok (if keep then x :: rest else rest)))
  end.

Section Contributions.

Variable w : World.
Variable username : string.
Variable events_api : nat -> Outcome (list ActivityEvent).

(** [datetime.fromisoformat(s).year]; a [ValueError] on text that is not
    an ISO date. *)
Variable fromisoformat_year : string -> Result Z.

(** [datetime.now().year] *)
Variable current_year : Z.

Definition events_url : string :=
  "https://api.github.com/users/" +:+ username +:+ "/events".

Definition in_current_year (e : ActivityEvent) : Result bool :=
  rbind (fromisoformat_year (replace_Z (event_created_at e)))
    (fun year => Ok (year =? current_year)).

Definition get_contribution_stats : M nat :=
  let contributions := 0%nat in
  events <- make_request w events_api events_url None ;;
  match events with
  | None | Some [] => ret contributions
  | Some events =>
      current_year_events <- lift (result_filter in_current_year events) ;;
      ret (length current_year_events)
  end.

End Contributions.

(** * Reference definitions

    Definitions used to state the properties: the states and events a
    call leaves behind, and the request streams the loops are measured
    against. *)

Arguments make_request w {A} api url params.

(** The state after one more event. *)
Definition logged (ev : Event) (s : State) : State :=
  mkState (gets s) (ticks s) (ev :: trace s).

(** The state after [print] of a plain line. *)
Definition say (text : string) (s : State) : State :=
  logged (EvPrint (LText text)) s.

(** The state in which the retry is issued. *)
Definition waited (url : string) (params : Params) (s : State)
    (wait_time : Z) : State :=
  mkState (S (gets s)) (S (S (ticks s)))
    (EvSleep wait_time :: EvPrint (LRateLimit wait_time)
       :: EvGet url params :: trace s).

(** What remains of [make_request] once the response to inspect is chosen:
    the status check, the decoding and the handler. *)
Definition settle {A} (url : string) (r : Response A) : M (option A) :=
  try_except
    (raise_for_status r ;;; data <- response_json r ;; ret (Some data))
    (fun e => print (LError url e) ;;; ret None).

(** The statuses [raise_for_status] rejects. *)
Definition is_error_status (st : Z) : bool := (400 <=? st) && (st <? 600).

(** Every call returns normally, issues at least one GET, and all the GETs
    it issues carry the url and parameters it was called with. *)
Record request_effect (url : string) (params : Params) (s s' : State)
    (evs : list Event) : Prop := {
  eff_trace : trace s' = evs ++ trace s;
  eff_gets : (gets s < gets s')%nat;
  eff_some : In (EvGet url params) evs;
  eff_only : forall u p, In (EvGet u p) evs -> u = url /\ p = params;
  eff_no_write : forall f c, ~ In (EvWrite f c) evs
}.

(** The results of [n] successive page requests starting at [page],
    whatever their contents: the reference against which the loop of
    [get_repositories] is measured. *)
Fixpoint fetch_pages (w : World) (username : string) (n : nat) (page : Z)
    : M (list (option (list Repo))) :=
  match n with
  | O => ret []
  | S n' =>
      data <- make_request w (repos_api w) (repos_url username)
                (repos_params page) ;;
      rest <- fetch_pages w username n' (page + 1) ;;
      ret (data :: rest)
  end.

(** A page after which the loop goes on, and one after which it stops. *)
Definition full_page (data : option (list Repo)) : Prop :=
  (100 <= length (page_items data))%nat.

Definition last_page (data : option (list Repo)) : Prop :=
  (length (page_items data) < 100)%nat.

(** [sum] of a list of rationals. *)
Definition Qsum (l : list Q) : Q := fold_right Qplus (0 # 1)%Q l.

(** The percentage the source computes for one entry. *)
Definition percentage (total_bytes : Z) (item : string * Z) : string * Q :=
  (fst item, (inject_Z (snd item) / inject_Z total_bytes * 100)%Q).

(** Larger value first. *)
Definition desc {K} (a b : K * Q) : Prop := (snd b <= snd a)%Q.

(** The repositories whose languages are requested. *)
Definition sampled (repos : list Repo) : list Repo :=
  List.filter (fun r => negb (repo_fork r)) (firstn 30 repos).

Definition lang_items (data : option LangMap) : LangMap :=
  match data with
  | Some items => items
  | None => []
  end.

(** The language maps obtained by requesting, in order, the languages of
    each repository of [rs]: the reference against which the loop of
    [get_language_stats] is measured. *)
Fixpoint fetch_languages (w : World) (username : string) (rs : list Repo)
    : M (list (Repo * LangMap)) :=
  match rs with
  | [] => ret []
  | repo :: rest =>
      data <- make_request w (langs_api w) (languages_url username repo) None ;;
      others <- fetch_languages w username rest ;;
      ret ((repo, lang_items data) :: others)
  end.

(** The accumulators after the inner loop over one fetched map, and
    after all of them. *)
Definition tally_repo (acc : dict Z * dict (gset string))
    (ri : Repo * LangMap) : dict Z * dict (gset string) :=
  fold_left (add_language (fst ri)) (snd ri) acc.

Definition tally (fetched : list (Repo * LangMap))
    (acc : dict Z * dict (gset string)) : dict Z * dict (gset string) :=
  fold_left tally_repo fetched acc.

(** Whether a language map has the key [lang]. *)
Definition has_language (lang : string) (items : LangMap) : bool :=
  existsb (fun kv => String.eqb lang (fst kv)) items.

(** The bytes a language map attributes to [lang]. *)
Definition bytes_of (lang : string) (items : LangMap) : Z :=
  py_sum (map snd (List.filter (fun kv => String.eqb lang (fst kv)) items)).

(** The bytes counted for [lang] over all fetched maps. *)
Definition bytes_over (lang : string) (fetched : list (Repo * LangMap)) : Z :=
  py_sum (map (fun ri => bytes_of lang (snd ri)) fetched).

(** Whether some fetched map has the key [lang]. *)
Definition reported (lang : string) (fetched : list (Repo * LangMap)) : bool :=
  existsb (fun ri => has_language lang (snd ri)) fetched.

(** What holds of the two accumulators all along the loop over [rs]. *)
Record tally_inv (rs : list Repo) (acc : dict Z * dict (gset string))
    : Prop := {
  inv_keys : keys (fst acc) = keys (snd acc);
  inv_nodup : List.NoDup (keys (fst acc));
  inv_names : forall lang (names : gset string),
    In (lang, names) (snd acc) ->
    names <> ∅ /\
    forall n, n ∈ names ->
      exists r, In r rs /\ repo_fork r = false /\ repo_name r = n
}.

(** The GETs, the sleeps and the file writes among some events. *)
Definition is_get (ev : Event) : bool :=
  match ev with
  | EvGet _ _ => true
  | _ => false
  end.

Definition count_gets (evs : list Event) : nat :=
  length (List.filter is_get evs).

Definition sleeps (evs : list Event) : list Z :=
  flat_map (fun ev => match ev with EvSleep secs => [secs] | _ => [] end) evs.

Definition writes (evs : list Event) : list (string * string) :=
  flat_map (fun ev => match ev with EvWrite f c => [(f, c)] | _ => [] end) evs.

(** What one call of [make_request] adds to the state: one or two GETs, at
    most one sleep, at most two clock readings, no file write; two GETs only
    after a rate-limit response, and neither sleep nor clock reading
    without one. *)
Record request_shape {A} (api : nat -> Outcome A) (s s' : State)
    (evs : list Event) : Prop := {
  shape_trace : trace s' = evs ++ trace s;
  shape_gets : gets s' = (gets s + count_gets evs)%nat;
  shape_bounds : (1 <= count_gets evs <= 2)%nat;
  shape_writes : writes evs = [];
  shape_sleeps : (length (sleeps evs) <= 1)%nat;
  shape_ticks : (ticks s <= ticks s' <= ticks s + 2)%nat;
  shape_retry :
    count_gets evs = 2%nat ->
    length (sleeps evs) = 1%nat /\
    exists r, api (gets s) = Reply r /\ is_rate_limited r = true;
  shape_plain :
    (forall r, api (gets s) = Reply r -> is_rate_limited r = false) ->
    count_gets evs = 1%nat /\ sleeps evs = [] /\ ticks s' = ticks s
}.

(** [lang_repos.get(lang, set())] on the accumulator of repository names. *)
Definition names_of (lang : string) (d : dict (gset string)) : gset string :=
  default ∅ (dict_get lang d).

(** All the bytes of a language map, and of all fetched maps. *)
Definition map_bytes (items : LangMap) : Z := py_sum (map snd items).

Definition all_bytes (fetched : list (Repo * LangMap)) : Z :=
  py_sum (map (fun ri => map_bytes (snd ri)) fetched).

(** The running maximum of [max(repos, key=stargazers_count)] over [l],
    started at [x]. *)
Definition first_max (x : Repo) (l : list Repo) : Repo :=
  fold_left
    (fun best y =>
       if repo_stargazers_count best <? repo_stargazers_count y
       then y else best)
    l x.

(** The events of a feed answer, none when there is no data. *)
Definition event_items (data : option (list ActivityEvent))
    : list ActivityEvent :=
  match data with
  | Some events => events
  | None => []
  end.

(** Whether the parser places an event in the year [current_year]. *)
Definition this_year (parse : string -> Result Z) (current_year : Z)
    (e : ActivityEvent) : bool :=
  match parse (replace_Z (event_created_at e)) with
  | Ok year => year =? current_year
  | _ => false
  end.

(** Whether the parser accepts the date of an event. *)
Definition dated (parse : string -> Result Z) (e : ActivityEvent) : Prop :=
  exists year, parse (replace_Z (event_created_at e)) = Ok year.

(** What rendering and writing the README come to, for a profile and its
    statistics: [True], or the exception of the date parser or of the file
    system. *)
Definition finish (format_joined : string -> Result string)
    (template : string -> User -> Stats -> string -> string)
    (disk : string -> string -> Result unit) (username : string)
    (u : User) (st : Stats) : Result bool :=
  rbind (format_joined (replace_Z (user_created_at u))) (fun joined =>
  rbind (disk "README.md" (template username u st joined)) (fun _ =>
  Ok true)).

(** The files written on the way. *)
Definition written (format_joined : string -> Result string)
    (template : string -> User -> Stats -> string -> string)
    (disk : string -> string -> Result unit) (username : string)
    (u : User) (st : Stats) : list (string * string) :=
  match format_joined (replace_Z (user_created_at u)) with
  | Ok joined =>
      match disk "README.md" (template username u st joined) with
      | Ok _ => [("README.md", template username u st joined)]
      | _ => []
      end
  | _ => []
  end.

(** * Sample data

    Concrete servers and entities on which the statements are exercised. *)

Definition epoch (secs : Z) : nat -> Q := fun n => inject_Z (secs + Z.of_nat n).

Definition ok_response {A} (a : A) : Response A :=
  mkResponse 200 "ok" None (Some a).


(** Endpoints that cannot be reached. *)
Definition no_user : nat -> Outcome UserJson := fun _ => Transport "unreachable".
Definition no_langs : nat -> Outcome LangMap := fun _ => Transport "unreachable".

Definition sample_user : User :=
  mkUser "octocat" (Some "The Octocat") None None None None None
    "2011-01-25T18:44:36Z" 8 20 9.

Definition sample_repo (n : string) (stars : Z) (is_fork : bool) : Repo :=
  mkRepo n false stars 0 stars 10 is_fork.

Definition four_repos : list Repo :=
  [sample_repo "a" 5 false; sample_repo "c" 1 true;
   sample_repo "b" 12 false; sample_repo "d" 0 false].

Definition plain_template : string -> User -> Stats -> string -> string :=
  fun username _ _ joined => "# " +:+ username +:+ ", since " +:+ joined.

(** A date formatter that knows the day the sample profile was created. *)
Definition sample_joined (s : string) : Result string :=
  if String.prefix "2011-01-25T" s then Ok "January 2011"
  else Raise (ValueError s).

(** A disk that takes every file, and one that takes none. *)
Definition good_disk : string -> string -> Result unit := fun _ _ => Ok tt.

Definition full_disk : string -> string -> Result unit :=
  fun _ _ => Raise (OSError "No space left on device").

(** A profile whose date of creation is not a date. *)
Definition undated_user : User :=
  mkUser "octocat" (Some "The Octocat") None None None None None
    "not a date" 8 20 9.

(** An account with that profile and one repository. *)
Definition undated_world : World :=
  mkWorld (epoch 1700000000)
    (fun _ => Reply (ok_response (UserObj undated_user)))
    (fun _ => Reply (ok_response [sample_repo "a" 5 false]))
    no_langs.


(** A server with one full page of repositories followed by a page of
    three. *)
Definition paged_world : World :=
  mkWorld (epoch 1700000000) no_user
    (fun n =>
       match n with
       | O => Reply (ok_response (repeat (sample_repo "bulk" 0 false) 100))
       | _ => Reply (ok_response [sample_repo "a" 5 false;
                                  sample_repo "b" 12 false;
                                  sample_repo "c" 1 true])
       end)
    no_langs.


(** An account with a profile and three repositories, whose language
    endpoint is unreachable. *)
Definition flaky_world : World :=
  mkWorld (epoch 1700000000)
    (fun _ => Reply (ok_response (UserObj sample_user)))
    (fun _ => Reply (ok_response [sample_repo "a" 5 false;
                                  sample_repo "b" 12 false;
                                  sample_repo "c" 1 true]))
    no_langs.

(** A server that knows the languages of the first and third repository
    asked about and is unreachable for the second. *)
Definition polyglot_world : World :=
  mkWorld (epoch 1700000000)
    (fun _ => Reply (ok_response (UserObj sample_user)))
    (fun _ => Reply (ok_response []))
    (fun n =>
       match n with
       | O => Reply (ok_response [("Python", 300); ("Coq", 100)])
       | S O => Transport "reset by peer"
       | _ => Reply (ok_response [("Coq", 50)])
       end).

(** A server whose repository pages are always full. *)
Definition endless_world : World :=
  mkWorld (epoch 1700000000) no_user
    (fun _ => Reply (ok_response (repeat (sample_repo "bulk" 0 false) 100)))
    no_langs.

(** A parser that knows two years. *)
Definition sample_year (s : string) : Result Z :=
  if String.prefix "2024-" s then Ok 2024
  else if String.prefix "2023-" s then Ok 2023
  else Raise (ValueError s).

Definition dated_feed : nat -> Outcome (list ActivityEvent) :=
  fun _ => Reply (ok_response
    [mkActivityEvent "2024-05-01T10:00:00Z";
     mkActivityEvent "2023-12-31T23:59:59Z";
     mkActivityEvent "2024-01-01T00:00:00Z"]).

Definition broken_feed : nat -> Outcome (list ActivityEvent) :=
  fun _ => Reply (ok_response
    [mkActivityEvent "2024-05-01T10:00:00Z";
     mkActivityEvent "yesterday";
     mkActivityEvent "2024-01-01T00:00:00Z"]).

(** * Properties *)

(** ** The request primitive *)

Lemma settle_error {A} url (r : Response A) s :
  is_error_status (status_code r) = true ->
  settle url r s
  = (Ok None, logged (EvPrint (LError url (HTTPError (status_code r)))) s).
Proof.
  intros H. unfold settle, try_except, bind, raise_for_status.
  unfold is_error_status in H. now rewrite H.
Qed.

Lemma settle_undecodable {A} url (r : Response A) s :
  is_error_status (status_code r) = false ->
  json_body r = None ->
  settle url r s = (Ok None, logged (EvPrint (LError url (ValueError "json"))) s).
Proof.
  intros H J. unfold settle, try_except, bind, raise_for_status, response_json.
  unfold is_error_status in H. now rewrite H, J.
Qed.

Lemma settle_data {A} url (r : Response A) s a :
  is_error_status (status_code r) = false ->
  json_body r = Some a ->
  settle url r s = (Ok (Some a), s).
Proof.
  intros H J. unfold settle, try_except, bind, raise_for_status, response_json.
  unfold is_error_status in H. now rewrite H, J.
Qed.

Lemma settle_cases {A} url (r : Response A) s :
  (exists a, settle url r s = (Ok (Some a), s)) \/
  (exists e, settle url r s = (Ok None, logged (EvPrint (LError url e)) s)).
Proof.
  destruct (is_error_status (status_code r)) eqn:H.
  - right. eexists. now apply settle_error.
  - destruct (json_body r) as [a|] eqn:J.
    + left. exists a. now apply settle_data.
    + right. eexists. now apply settle_undecodable.
Qed.

Section Request.

Context {A : Type} (w : World) (api : nat -> Outcome A).
Variables (url : string) (params : Params).

Lemma make_request_transport s msg :
  api (gets s) = Transport msg ->
  make_request w api url params s
  = (Ok None,
     mkState (S (gets s)) (ticks s)
       (EvPrint (LError url (ConnectionError msg))
          :: EvGet url params :: trace s)).
Proof.
  intros H. unfold make_request, try_except, bind, session_get.
  now rewrite H.
Qed.

Lemma make_request_plain s r :
  api (gets s) = Reply r ->
  is_rate_limited r = false ->
  make_request w api url params s
  = settle url r (mkState (S (gets s)) (ticks s) (EvGet url params :: trace s)).
Proof.
  intros H L. unfold make_request, settle, try_except, bind, session_get.
  rewrite H, L. reflexivity.
Qed.

Lemma make_request_bad_header s r what :
  api (gets s) = Reply r ->
  is_rate_limited r = true ->
  x_ratelimit_reset r = Some (BadText what) ->
  make_request w api url params s
  = (Ok None,
     mkState (S (gets s)) (S (ticks s))
       (EvPrint (LError url (ValueError what)) :: EvGet url params :: trace s)).
Proof.
  intros H L B.
  unfold make_request, try_except, bind, session_get, time_time, lift.
  rewrite H, L. cbn. rewrite B. reflexivity.
Qed.

Lemma make_request_retry s r reset_time :
  api (gets s) = Reply r ->
  is_rate_limited r = true ->
  int_of_header (x_ratelimit_reset r) (clock w (ticks s) + 60)%Q
    = Ok reset_time ->
  let wait_time :=
    Z.max (reset_time - int_of_float (clock w (S (ticks s)))) 60 in
  make_request w api url params s
  = match api (S (gets s)) with
    | Transport msg =>
        (Ok None,
         logged (EvPrint (LError url (ConnectionError msg)))
           (logged (EvGet url params)
              (mkState (S (S (gets s))) (S (S (ticks s)))
                 (trace (waited url params s wait_time)))))
    | Reply r2 =>
        settle url r2
          (mkState (S (S (gets s))) (S (S (ticks s)))
             (EvGet url params :: trace (waited url params s wait_time)))
    end.
Proof.
  intros H L I wait_time.
  unfold make_request, settle, try_except, bind, session_get, time_time, lift.
  rewrite H, L. cbn. rewrite I. cbn.
  destruct (api (S (gets s))); reflexivity.
Qed.

End Request.

Ltac solve_effect :=
  split; cbn;
  [ reflexivity | lia | tauto
  | intros ? ? ?; intuition congruence
  | intros ? ? ?; intuition discriminate ].

Lemma make_request_effect {A} w (api : nat -> Outcome A) url params s :
  exists v s' evs,
    make_request w api url params s = (Ok v, s') /\
    request_effect url params s s' evs /\
    match v with
    | None => exists e rest, evs = EvPrint (LError url e) :: rest
    | Some _ => True
    end.
Proof.
  destruct (api (gets s)) as [msg|r] eqn:H.
  - rewrite (make_request_transport w api url params s msg H).
    eexists _, _, [_; _]. split; [reflexivity|]. split; [solve_effect|eauto].
  - destruct (is_rate_limited r) eqn:L.
    + destruct (int_of_header (x_ratelimit_reset r)
                  (clock w (ticks s) + 60)%Q) as [reset_time|e|] eqn:I.
      * rewrite (make_request_retry w api url params s r reset_time H L I).
        cbv zeta. set (wt := Z.max _ 60).
        destruct (api (S (gets s))) as [msg|r2].
        -- eexists _, _, [_; _; _; _; _].
           split; [reflexivity|]. split; [solve_effect|eauto].
        -- match goal with |- context [settle url r2 ?s0] =>
             destruct (settle_cases url r2 s0) as [[a ->]|[e ->]] end.
           ++ eexists _, _, [_; _; _; _].
              split; [reflexivity|]. split; [solve_effect|exact Logic.I].
           ++ eexists _, _, [_; _; _; _; _].
              split; [reflexivity|]. split; [solve_effect|eauto].
      * destruct (x_ratelimit_reset r) as [[z|what]|] eqn:B; try discriminate.
        cbn in I. injection I as <-.
        rewrite (make_request_bad_header w api url params s r what H L B).
        eexists _, _, [_; _]. split; [reflexivity|]. split; [solve_effect|eauto].
      * destruct (x_ratelimit_reset r) as [[z|what]|]; discriminate.
    + rewrite (make_request_plain w api url params s r H L).
      match goal with |- context [settle url r ?s0] =>
        destruct (settle_cases url r s0) as [[a ->]|[e ->]] end.
      * eexists _, _, [_].
        split; [reflexivity|]. split; [solve_effect|exact Logic.I].
      * eexists _, _, [_; _].
        split; [reflexivity|]. split; [solve_effect|eauto].
Qed.

(** ** Failures stay inside [make_request] *)



(** ** Rate limiting *)




(** ** Pagination *)

Section Pagination.

Variables (w : World) (username : string).

Lemma fetch_pages_total n : forall page s,
  exists pages s', fetch_pages w username n page s = (Ok pages, s').
Proof.
  induction n as [|n IH]; intros page s; cbn.
  - now exists [], s.
  - unfold bind.
    destruct (make_request_effect w (repos_api w) (repos_url username)
                (repos_params page) s) as (v & s1 & evs & -> & _).
    destruct (IH (page + 1) s1) as (pages & s' & ->).
    now exists (v :: pages), s'.
Qed.

Lemma repositories_loop_stops k : forall fuel repos page s full s1 last s2,
  fetch_pages w username k page s = (Ok full, s1) ->
  Forall full_page full ->
  make_request w (repos_api w) (repos_url username)
    (repos_params (page + Z.of_nat k)) s1 = (Ok last, s2) ->
  last_page last ->
  (k < fuel)%nat ->
  repositories_loop w username fuel repos page s
  = (Ok (repos ++ concat (map page_items full) ++ page_items last), s2).
Proof.
  induction k as [|k IH]; intros fuel repos page s full s1 last s2 F A R L Hf.
  - cbn in F. injection F as <- <-.
    destruct fuel as [|fuel]; [lia|]. cbn [repositories_loop].
    replace (page + Z.of_nat 0) with page in R by lia.
    unfold bind. rewrite R.
    unfold last_page in L.
    destruct last as [[|r l]|]; cbn [map concat page_items app] in *;
      rewrite ?app_nil_r; try reflexivity.
    destruct (Nat.ltb_spec (length (r :: l)) 100); [reflexivity|lia].
  - cbn in F. unfold bind in F.
    destruct (make_request_effect w (repos_api w) (repos_url username)
                (repos_params page) s) as (d & s0 & evs & E & _).
    rewrite E in F.
    destruct (fetch_pages_total k (page + 1) s0) as (rest & s1' & E').
    rewrite E' in F. injection F as <- <-.
    inversion A as [|? ? Hd Hrest]; subst.
    destruct fuel as [|fuel]; [lia|]. cbn [repositories_loop].
    unfold bind. rewrite E.
    unfold full_page in Hd.
    destruct d as [[|r l]|]; cbn [page_items] in Hd;
      try (cbn in Hd; lia).
    destruct (Nat.ltb_spec (length (r :: l)) 100) as [Hlt|_]; [lia|].
    rewrite (IH fuel (repos ++ r :: l) (page + 1) s0 rest s1' last s2);
      try assumption; try lia.
    + cbn [map concat page_items]. now rewrite <- !app_assoc.
    + replace (page + 1 + Z.of_nat k) with (page + Z.of_nat (S k)) by lia.
      exact R.
Qed.

End Pagination.

(** C1. If the first [k] pages are full and the next request returns a page
    shorter than 100 or no data, then [get_repositories] returns, provided
    the loop is allowed at least [k + 1] iterations, with the pages
    concatenated in order, in the state reached right after that last
    request: no further page is asked for. *)
Theorem get_repositories_stops_at_short_page (w : World) (username : string)
    (k : nat) (full : list (option (list Repo))) (s s1 s2 : State)
    (last : option (list Repo)) (fuel : nat) :
  fetch_pages w username k 1 s = (Ok full, s1) ->
  Forall full_page full ->
  make_request w (repos_api w) (repos_url username)
    (repos_params (1 + Z.of_nat k)) s1 = (Ok last, s2) ->
  last_page last ->
  (k < fuel)%nat ->
  get_repositories w username fuel s
  = (Ok (concat (map page_items (full ++ [last]))), s2).
Proof.
  intros F A R L Hf. unfold get_repositories.
  rewrite (repositories_loop_stops w username k fuel [] 1 s full s1 last s2
             F A R L Hf).
  rewrite map_app, concat_app. cbn. now rewrite app_nil_r.
Qed.

Lemma get_repositories_stops_at_short_page_witness :
  fst (get_repositories paged_world "octocat" 2 initial)
  = Ok (repeat (sample_repo "bulk" 0 false) 100
          ++ [sample_repo "a" 5 false; sample_repo "b" 12 false;
              sample_repo "c" 1 true]).
Proof.
  refine (f_equal fst
    (get_repositories_stops_at_short_page paged_world "octocat" 1
       [Some (repeat (sample_repo "bulk" 0 false) 100)] initial _ _
       (Some [sample_repo "a" 5 false; sample_repo "b" 12 false;
              sample_repo "c" 1 true]) 2 _ _ _ _ _)).
  - reflexivity.
  - repeat constructor.
  - reflexivity.
  - unfold last_page. cbn. lia.
  - lia.
Defined.

(** ** Totality of the sampling, the aggregation and the rendering *)



Lemma py_truediv_nonzero a b :
  b <> 0 -> py_truediv a b = Ok (inject_Z a / inject_Z b)%Q.
Proof.
  intros H. unfold py_truediv. destruct (Z.eqb_spec b 0); [contradiction|].
  reflexivity.
Qed.

Lemma py_max_by_cons {A} (key : A -> Z) x l :
  exists m, py_max_by key (x :: l) = Ok m.
Proof. now eexists. Qed.

Lemma calculate_advanced_stats_total user repos :
  exists st, calculate_advanced_stats user repos = Ok st.
Proof.
  unfold calculate_advanced_stats.
  rewrite py_truediv_nonzero by lia. cbn [rbind].
  destruct repos as [|r l]; cbn [rbind py_max_by]; now eexists.
Qed.

Lemma result_map_total {A B} (f : A -> Result B) l :
  (forall x, exists y, f x = Ok y) -> exists ys, result_map f l = Ok ys.
Proof.
  intros Hf. induction l as [|x l [ys IH]]; cbn [result_map].
  - now eexists.
  - destruct (Hf x) as [y ->]. cbn [rbind]. rewrite IH. cbn [rbind].
    now eexists.
Qed.

Lemma lang_percentages_total languages :
  exists d, lang_percentages languages = Ok d.
Proof.
  unfold lang_percentages.
  destruct (Z.ltb_spec 0 (py_sum (map snd languages))) as [Hpos|_].
  - apply result_map_total. intros item.
    rewrite py_truediv_nonzero by lia. cbn [rbind]. now eexists.
  - now eexists.
Qed.

Lemma generate_modern_readme_value username format_joined template user stats
    languages lang_repos :
  generate_modern_readme username format_joined template user stats languages
    lang_repos
  = rbind (format_joined (replace_Z (user_created_at user)))
      (fun joined => Ok (template username user stats joined)).
Proof.
  unfold generate_modern_readme.
  destruct (lang_percentages_total languages) as [d ->]. reflexivity.
Qed.

(** ** The outcome of a run *)


Lemma repositories_loop_no_raise w username fuel : forall repos page s e s',
  repositories_loop w username fuel repos page s <> (Raise e, s').
Proof.
  induction fuel as [|fuel IH]; intros repos page s e s';
    cbn [repositories_loop].
  - discriminate.
  - unfold bind.
    destruct (make_request_effect w (repos_api w) (repos_url username)
                (repos_params page) s) as (d & s0 & evs & -> & _).
    destruct d as [[|r data]|]; try discriminate.
    destruct (length (r :: data) <? 100)%nat; [discriminate|apply IH].
Qed.

Lemma bind_print {B} (l : Line) (k : unit -> M B) s :
  bind (print l) k s = k tt (logged (EvPrint l) s).
Proof. reflexivity. Qed.

Lemma bind_emit {B} (ev : Event) (k : unit -> M B) s :
  bind (emit ev) k s = k tt (logged ev s).
Proof. reflexivity. Qed.







(** Nothing catches what the date parser raises: with a profile whose
    date of creation is not a date, [run] ends with that exception, and with
    a disk that refuses the file, with that of the disk. *)
Lemma run_raises_when_rendering_or_writing_fails :
  fst (run undated_world "octocat" sample_joined plain_template good_disk 3
         initial) = Raise (ValueError "not a date") /\
  fst (run flaky_world "octocat" sample_joined plain_template full_disk 3
         initial) = Raise (OSError "No space left on device").
Proof. split; vm_compute; reflexivity. Qed.


(** ** Aggregation *)

Lemma py_sum_from acc l : fold_left Z.add l acc = acc + py_sum l.
Proof.
  unfold py_sum. revert acc.
  induction l as [|x l IH]; intros acc; cbn [fold_left]; [lia|].
  rewrite (IH (acc + x)), (IH (0 + x)). lia.
Qed.

Lemma py_sum_cons x l : py_sum (x :: l) = x + py_sum l.
Proof. unfold py_sum at 1. cbn [fold_left]. now rewrite py_sum_from. Qed.

(** C7. On an empty repository list the aggregate is defined and holds
    0 original repositories, ["None"] and 0 for the most starred one, and an
    average of 0; on every list the average is computed without error, its
    divisor being [max (number of original repositories) 1], at least 1. *)
Theorem calculate_advanced_stats_empty (user : User) :
  (exists st,
     calculate_advanced_stats user [] = Ok st /\
     original_repos st = 0%nat /\
     most_starred_repo st = "None" /\
     most_starred_stars st = 0 /\
     (avg_stars_per_repo st == 0)%Q) /\
  (forall repos, exists st,
     calculate_advanced_stats user repos = Ok st /\
     let divisor :=
       Z.max (Z.of_nat (length (List.filter (fun r => negb (repo_fork r)) repos))) 1
     in
     1 <= divisor /\
     py_truediv (total_stars st) divisor = Ok (avg_stars_per_repo st)).
Proof.
  split.
  - eexists. split; [reflexivity|]. cbn. repeat split; reflexivity.
  - intros repos. unfold calculate_advanced_stats.
    rewrite py_truediv_nonzero by lia. cbn [rbind].
    destruct repos as [|r l]; cbn [rbind py_max_by]; eexists;
      (split; [reflexivity|]); cbn [total_stars avg_stars_per_repo];
      (split; [lia|]); now rewrite py_truediv_nonzero by lia.
Qed.

(** C8. Two original repositories with 5 and 12 stars aggregate to 17
    stars in total, 12 for the most starred one and an average of 8.5,
    whatever their other fields. *)
Theorem calculate_advanced_stats_two_repos (user : User)
    (n1 n2 : string) (p1 p2 : bool) (f1 f2 w1 w2 z1 z2 : Z) :
  exists st,
    calculate_advanced_stats user
      [mkRepo n1 p1 5 f1 w1 z1 false; mkRepo n2 p2 12 f2 w2 z2 false] = Ok st /\
    total_stars st = 17 /\
    most_starred_stars st = 12 /\
    most_starred_repo st = n2 /\
    (avg_stars_per_repo st == 17 # 2)%Q.
Proof.
  eexists. split; [reflexivity|]. cbn. repeat split; reflexivity.
Qed.

(** ** Language percentages *)

Lemma result_map_percentage (t : Z) (l : list (string * Z)) :
  t <> 0 ->
  result_map
    (fun item =>
       rbind (py_truediv (snd item) t) (fun q => Ok (fst item, (q * 100)%Q)))
    l
  = Ok (map (percentage t) l).
Proof.
  intros Ht. induction l as [|item l IH]; cbn [result_map map]; [reflexivity|].
  rewrite py_truediv_nonzero by exact Ht. cbn [rbind]. rewrite IH. reflexivity.
Qed.

Lemma lang_percentages_positive languages :
  0 < py_sum (map snd languages) ->
  lang_percentages languages
  = Ok (map (percentage (py_sum (map snd languages))) languages).
Proof.
  intros Hpos. unfold lang_percentages.
  destruct (Z.ltb_spec 0 (py_sum (map snd languages))); [|lia].
  apply result_map_percentage. lia.
Qed.

Lemma Qsum_percentages (t : Z) (l : list (string * Z)) :
  t <> 0 ->
  (Qsum (map snd (map (percentage t) l))
   == inject_Z (py_sum (map snd l)) / inject_Z t * 100)%Q.
Proof.
  intros Ht.
  assert (Hq : ~ (inject_Z t == 0)%Q).
  { unfold Qeq. cbn. lia. }
  induction l as [|item l IH]; cbn [map Qsum fold_right].
  - unfold py_sum. cbn. field. exact Hq.
  - fold (Qsum (map snd (map (percentage t) l))). rewrite IH.
    rewrite py_sum_cons, inject_Z_plus. cbn [percentage snd]. field. exact Hq.
Qed.

Lemma insert_desc_perm {K} (x : K * Q) l : Permutation (insert_desc x l) (x :: l).
Proof.
  induction l as [|y l IH]; cbn [insert_desc]; [reflexivity|].
  destruct (Qle_bool (snd y) (snd x)); [reflexivity|].
  rewrite IH. apply perm_swap.
Qed.

Lemma sorted_desc_perm {K} (l : list (K * Q)) : Permutation (sorted_desc l) l.
Proof.
  induction l as [|x l IH]; cbn; [reflexivity|].
  fold (sorted_desc l). rewrite insert_desc_perm. now constructor.
Qed.

Lemma desc_trans {K} (a b c : K * Q) : desc a b -> desc b c -> desc a c.
Proof. unfold desc. intros H1 H2. eapply Qle_trans; eassumption. Qed.

Lemma insert_desc_sorted {K} (x : K * Q) l :
  StronglySorted desc l -> StronglySorted desc (insert_desc x l).
Proof.
  induction 1 as [|y l Hs IH Hy]; cbn [insert_desc].
  - repeat constructor.
  - destruct (Qle_bool (snd y) (snd x)) eqn:E.
    + apply Qle_bool_iff in E.
      constructor; [now constructor|].
      constructor; [exact E|].
      eapply Forall_impl; [exact Hy|].
      intros z Hz. eapply desc_trans; [exact E|exact Hz].
    + constructor; [exact IH|].
      eapply Permutation_Forall; [symmetry; apply insert_desc_perm|].
      constructor; [|exact Hy].
      unfold desc. apply Qlt_le_weak, Qnot_le_lt.
      intros H. apply Qle_bool_iff in H. congruence.
Qed.

Lemma sorted_desc_sorted {K} (l : list (K * Q)) :
  StronglySorted desc (sorted_desc l).
Proof.
  induction l as [|x l IH]; cbn; [constructor|].
  now apply insert_desc_sorted.
Qed.

(** C6, as the code has it. Each percentage is [bytes / total * 100]; with
    a positive total every language keeps its entry and the percentages
    sum to 100; with a total that is not positive the result is the empty
    mapping. The displayed languages are the first 8 of the entries put in
    descending order of percentage. *)
Theorem lang_percentages_sum (languages : dict Z) :
  let total_bytes := py_sum (map snd languages) in
  (0 < total_bytes ->
   exists pct,
     lang_percentages languages = Ok pct /\
     pct = map (percentage total_bytes) languages /\
     keys pct = keys languages /\
     (Qsum (map snd pct) == 100)%Q) /\
  (total_bytes <= 0 ->
   exists pct,
     lang_percentages languages = Ok pct /\
     pct = [] /\
     (Qsum (map snd pct) == 0)%Q) /\
  (forall pct : dict Q,
     length (top_languages pct) = Nat.min 8 (length pct) /\
     exists rest,
       Permutation (top_languages pct ++ rest) pct /\
       StronglySorted desc (top_languages pct ++ rest)).
Proof.
  intros total_bytes. repeat split.
  - intros Hpos. eexists. split; [now apply lang_percentages_positive|].
    split; [reflexivity|]. split.
    + unfold keys. rewrite map_map. reflexivity.
    + rewrite Qsum_percentages by (fold total_bytes; lia).
      fold total_bytes. field. unfold Qeq. cbn. lia.
  - intros Hneg. exists []. unfold lang_percentages. fold total_bytes.
    destruct (Z.ltb_spec 0 total_bytes); [lia|]. repeat split.
  - unfold top_languages. rewrite length_firstn.
    now rewrite (Permutation_length (sorted_desc_perm pct)).
  - exists (skipn 8 (sorted_desc pct)). unfold top_languages.
    rewrite firstn_skipn. split;
      [apply sorted_desc_perm|apply sorted_desc_sorted].
Qed.

Lemma lang_percentages_sum_witness :
  exists pct,
    lang_percentages [("Python", 300); ("Coq", 100)] = Ok pct /\
    pct = [("Python", (300 # 1) / (400 # 1) * 100)%Q;
           ("Coq", (100 # 1) / (400 # 1) * 100)%Q] /\
    keys pct = ["Python"; "Coq"] /\
    (Qsum (map snd pct) == 100)%Q.
Proof.
  exact (proj1 (lang_percentages_sum [("Python", 300); ("Coq", 100)])
           ltac:(reflexivity)).
Defined.

(** C6 as stated fails: a language map whose bytes add up to 0 gives no
    percentage at all, not a percentage of 0 for each language. *)
Lemma lang_percentages_zero_total_is_empty :
  py_sum (map snd [("Python", 0)]) = 0 /\
  dict_get "Python" [("Python", 0)] = Some 0 /\
  exists pct,
    lang_percentages [("Python", 0)] = Ok pct /\
    dict_get "Python" pct = None /\
    dict_get "Python" pct <> Some (0 # 1)%Q.
Proof.
  repeat split. exists []. repeat split. discriminate.
Qed.

(** ** Dictionaries *)

Lemma dict_get_upd {V} (k k' : string) (f : option V -> V) (d : dict V) :
  dict_get k' (dict_upd k f d)
  = if String.eqb k' k then Some (f (dict_get k d)) else dict_get k' d.
Proof.
  induction d as [|[k0 v] d IH]; cbn [dict_upd dict_get].
  - destruct (String.eqb_spec k' k); reflexivity.
  - destruct (String.eqb_spec k k0) as [->|Hne]; cbn [dict_get].
    + destruct (String.eqb_spec k' k0); reflexivity.
    + rewrite IH. destruct (String.eqb_spec k' k0) as [->|];
        [|reflexivity].
      destruct (String.eqb_spec k0 k); [congruence|reflexivity].
Qed.

Lemma keys_dict_upd {V W} (k : string) (f : option V -> V) (g : option W -> W)
    (d1 : dict V) : forall d2 : dict W,
  keys d1 = keys d2 -> keys (dict_upd k f d1) = keys (dict_upd k g d2).
Proof.
  unfold keys.
  induction d1 as [|[k1 v1] d1 IH]; intros [|[k2 v2] d2] E;
    cbn [map fst] in E; try discriminate; cbn [dict_upd map fst];
    [reflexivity|].
  injection E as <- E.
  destruct (String.eqb k k1); cbn [map fst]; f_equal; auto.
Qed.

Lemma in_dict_upd {V} (k : string) (f : option V -> V) (d : dict V) k' v' :
  In (k', v') (dict_upd k f d) ->
  In (k', v') d \/
  (k' = k /\ (v' = f None \/ exists v, In (k, v) d /\ v' = f (Some v))).
Proof.
  induction d as [|[k0 v] d IH]; cbn [dict_upd].
  - intros [[= <- <-]|[]]. right. auto.
  - destruct (String.eqb_spec k k0) as [->|Hne].
    + intros [[= <- <-]|Hin].
      * right. split; [reflexivity|]. right. exists v. split; [now left|auto].
      * left. now right.
    + intros [[= <- <-]|Hin].
      * left. now left.
      * destruct (IH Hin) as [H|(-> & [->|(v0 & H & ->)])].
        -- left. now right.
        -- right. auto.
        -- right. split; [reflexivity|]. right. exists v0.
           split; [now right|reflexivity].
Qed.

Lemma keys_nodup_upd {V} (k : string) (f : option V -> V) (d : dict V) :
  List.NoDup (keys d) -> List.NoDup (keys (dict_upd k f d)).
Proof.
  unfold keys. induction d as [|[k0 v] d IH]; cbn [dict_upd map fst].
  - intros _. repeat constructor. intros [].
  - intros Hnd. inversion Hnd as [|? ? Hnotin Hnd']; subst.
    destruct (String.eqb_spec k k0) as [->|Hne]; cbn [map fst].
    + now constructor.
    + constructor; [|auto].
      intros Hin. apply in_map_iff in Hin as ([k1 v1] & Hk & Hin).
      cbn in Hk. subst k1.
      destruct (in_dict_upd k f d k0 v1 Hin) as [H|[-> _]];
        [|congruence].
      apply Hnotin. apply in_map_iff. now exists (k0, v1).
Qed.

(** ** Language sampling *)

Lemma fetch_languages_total w username rs : forall s,
  exists fetched s', fetch_languages w username rs s = (Ok fetched, s').
Proof.
  induction rs as [|repo rest IH]; intros s; cbn [fetch_languages].
  - now exists [], s.
  - unfold bind.
    destruct (make_request_effect w (langs_api w)
                (languages_url username repo) None s) as (d & s1 & evs & -> & _).
    destruct (IH s1) as (others & s' & ->). now eexists _, _.
Qed.

Lemma fetch_languages_repos w username rs : forall s fetched s',
  fetch_languages w username rs s = (Ok fetched, s') -> map fst fetched = rs.
Proof.
  induction rs as [|repo rest IH]; intros s fetched s' E;
    cbn [fetch_languages] in E.
  - now injection E as <- <-.
  - unfold bind in E.
    destruct (make_request_effect w (langs_api w)
                (languages_url username repo) None s) as (d & s1 & evs & Ed & _).
    rewrite Ed in E.
    destruct (fetch_languages_total w username rest s1) as (others & s2 & Eo).
    rewrite Eo in E. injection E as <- <-. cbn. f_equal. eauto.
Qed.

Lemma languages_loop_fetch w username rs : forall acc s fetched s',
  fetch_languages w username
    (List.filter (fun r => negb (repo_fork r)) rs) s = (Ok fetched, s') ->
  languages_loop w username rs acc s = (Ok (tally fetched acc), s').
Proof.
  induction rs as [|repo rest IH]; intros acc s fetched s' E;
    cbn [List.filter languages_loop] in *.
  - cbn in E. now injection E as <- <-.
  - destruct (repo_fork repo); cbn [negb] in E; [now apply IH|].
    cbn [fetch_languages] in E. unfold bind in *.
    destruct (make_request_effect w (langs_api w)
                (languages_url username repo) None s) as (d & s1 & evs & Ed & _).
    rewrite Ed in *.
    destruct (fetch_languages_total w username
                (List.filter (fun r => negb (repo_fork r)) rest) s1)
      as (others & s2 & Eo).
    rewrite Eo in E. injection E as <- <-.
    destruct d as [[|item items]|]; exact (IH _ s1 others s2 Eo).
Qed.

Lemma bytes_of_absent lang items :
  has_language lang items = false -> bytes_of lang items = 0.
Proof.
  unfold has_language, bytes_of.
  induction items as [|[k b] items IH]; cbn [existsb List.filter fst];
    [reflexivity|].
  destruct (String.eqb lang k); cbn [orb]; [discriminate|exact IH].
Qed.

Lemma bytes_of_cons lang k b items :
  bytes_of lang ((k, b) :: items)
  = (if String.eqb lang k then b else 0) + bytes_of lang items.
Proof.
  unfold bytes_of. cbn [List.filter fst].
  destruct (String.eqb lang k); cbn [map snd]; [apply py_sum_cons|lia].
Qed.

Lemma add_languages_get lang repo items : forall acc,
  dict_get lang (fst (fold_left (add_language repo) items acc))
  = if has_language lang items
    then Some (default 0 (dict_get lang (fst acc)) + bytes_of lang items)
    else dict_get lang (fst acc).
Proof.
  induction items as [|[k b] items IH]; intros [languages language_repos];
    cbn [fold_left]; [reflexivity|].
  rewrite IH, bytes_of_cons. unfold has_language at 2.
  cbn [existsb fst add_language]. fold (has_language lang items).
  rewrite dict_get_upd.
  destruct (String.eqb_spec lang k) as [->|Hne]; cbn [orb default].
  - destruct (has_language k items) eqn:Hh.
    + unfold id. f_equal. lia.
    + rewrite (bytes_of_absent k items Hh). unfold id. f_equal. lia.
  - destruct (has_language lang items); [unfold id; f_equal; lia|reflexivity].
Qed.

Lemma bytes_over_absent lang fetched :
  reported lang fetched = false -> bytes_over lang fetched = 0.
Proof.
  unfold reported, bytes_over.
  induction fetched as [|ri fetched IH]; cbn [existsb map]; [reflexivity|].
  intros H. apply orb_false_iff in H as [H1 H2].
  rewrite py_sum_cons, (bytes_of_absent _ _ H1), (IH H2). reflexivity.
Qed.

Lemma tally_get lang fetched : forall acc,
  dict_get lang (fst (tally fetched acc))
  = if reported lang fetched
    then Some (default 0 (dict_get lang (fst acc)) + bytes_over lang fetched)
    else dict_get lang (fst acc).
Proof.
  unfold tally.
  induction fetched as [|ri fetched IH]; intros acc; cbn [fold_left];
    [reflexivity|].
  rewrite IH. unfold tally_repo at 1 2. rewrite add_languages_get.
  unfold reported at 2, bytes_over at 2. cbn [existsb map].
  rewrite py_sum_cons.
  fold (reported lang fetched). fold (bytes_over lang fetched).
  destruct (has_language lang (snd ri)) eqn:Hh; cbn [orb default].
  - destruct (reported lang fetched) eqn:Hr.
    + unfold id. f_equal. lia.
    + rewrite (bytes_over_absent _ _ Hr). unfold id. f_equal. lia.
  - rewrite (bytes_of_absent _ _ Hh).
    destruct (reported lang fetched); [unfold id; f_equal; lia|reflexivity].
Qed.

Lemma sampled_length repos : (length (sampled repos) <= 30)%nat.
Proof.
  unfold sampled.
  etransitivity; [apply List.filter_length_le|].
  rewrite length_firstn. lia.
Qed.

Lemma sampled_prefix repos : sampled (firstn 30 repos) = sampled repos.
Proof. unfold sampled. now rewrite firstn_firstn. Qed.

Lemma get_language_stats_value w username repos s fetched s' :
  fetch_languages w username (sampled repos) s = (Ok fetched, s') ->
  get_language_stats w username repos s
  = (Ok (fst (tally fetched ([], [])),
         map (fun kv => (fst kv, elements (snd kv)))
           (snd (tally fetched ([], [])))), s').
Proof.
  intros F. unfold get_language_stats, bind.
  now rewrite (languages_loop_fetch w username (firstn 30 repos) ([], []) s
                 fetched s' F).
Qed.

Lemma fetched_are_sampled w username repos s fetched s' :
  fetch_languages w username (sampled repos) s = (Ok fetched, s') ->
  Forall (fun ri => repo_fork (fst ri) = false /\
                    In (fst ri) (firstn 30 repos)) fetched.
Proof.
  intros F.
  pose proof (fetch_languages_repos w username _ s fetched s' F) as Hfst.
  apply List.Forall_forall. intros ri Hin.
  assert (Hs : In (fst ri) (sampled repos)).
  { rewrite <- Hfst. now apply in_map. }
  apply filter_In in Hs as [Hin30 Hnf].
  split; [now destruct (repo_fork (fst ri))|exact Hin30].
Qed.

(** C5. The language maps requested are those of the repositories that are
    not forks among the first 30 of the list, in list order, so at most 30;
    the rest of the list has no influence; and the total returned for a
    language is the sum of its bytes over the maps obtained, a language
    being present exactly when some map has it. *)
Theorem get_language_stats_totals (w : World) (username : string)
    (repos : list Repo) (s : State) (fetched : list (Repo * LangMap))
    (s' : State) :
  fetch_languages w username (sampled repos) s = (Ok fetched, s') ->
  exists languages lang_repos,
    get_language_stats w username repos s = (Ok (languages, lang_repos), s') /\
    get_language_stats w username (firstn 30 repos) s
      = (Ok (languages, lang_repos), s') /\
    map fst fetched = List.filter (fun r => negb (repo_fork r)) (firstn 30 repos) /\
    (length fetched <= 30)%nat /\
    Forall (fun ri => repo_fork (fst ri) = false /\
                      In (fst ri) (firstn 30 repos)) fetched /\
    forall lang,
      dict_get lang languages
      = if reported lang fetched then Some (bytes_over lang fetched) else None.
Proof.
  intros F.
  pose proof (fetch_languages_repos w username _ s fetched s' F) as Hfst.
  eexists _, _. split; [exact (get_language_stats_value w username repos s _ _ F)|].
  split.
  { apply get_language_stats_value. now rewrite sampled_prefix. }
  split; [exact Hfst|]. split.
  { rewrite <- (length_map fst), Hfst. apply sampled_length. }
  split; [exact (fetched_are_sampled w username repos s fetched s' F)|].
  intros lang. rewrite tally_get. cbn [fst dict_get default].
  now destruct (reported lang fetched).
Qed.

Lemma get_language_stats_totals_witness :
  exists languages lang_repos,
    fst (get_language_stats polyglot_world "octocat" four_repos initial)
      = Ok (languages, lang_repos) /\
    dict_get "Coq" languages = Some 150 /\
    dict_get "Python" languages = Some 300 /\
    dict_get "Rust" languages = None.
Proof.
  destruct (get_language_stats_totals polyglot_world "octocat" four_repos
              initial _ _ eq_refl)
    as (languages & lang_repos & E & _ & _ & _ & _ & T).
  exists languages, lang_repos. rewrite E. split; [reflexivity|].
  rewrite !T. repeat split.
Defined.

Lemma languages_loop_trace w username rs : forall acc s,
  exists acc' s' evs,
    languages_loop w username rs acc s = (Ok acc', s') /\
    trace s' = evs ++ trace s /\
    forall url params,
      In (EvGet url params) evs <->
      params = None /\
      exists r, In r rs /\ repo_fork r = false /\
                url = languages_url username r.
Proof.
  induction rs as [|repo rest IH]; intros acc s; cbn [languages_loop].
  - exists acc, s, []. split; [reflexivity|]. split; [reflexivity|].
    intros url params. split; [intros []|intros (_ & r & [] & _)].
  - destruct (repo_fork repo) eqn:Hf.
    + destruct (IH acc s) as (acc' & s' & evs & E & T & G).
      exists acc', s', evs. split; [exact E|]. split; [exact T|].
      intros url params. rewrite G. split.
      * intros (-> & r & Hin & Hr & ->). split; [reflexivity|].
        exists r. split; [now right|auto].
      * intros (-> & r & [<-|Hin] & Hr & ->); [congruence|].
        split; [reflexivity|]. now exists r.
    + unfold bind.
      destruct (make_request_effect w (langs_api w)
                  (languages_url username repo) None s)
        as (d & s1 & evs1 & -> & F & _).
      set (acc1 := match d with
                   | Some (item :: items) =>
                       fold_left (add_language repo) (item :: items) acc
                   | _ => acc
                   end).
      destruct (IH acc1 s1) as (acc' & s' & evs & E & T & G).
      exists acc', s', (evs ++ evs1). split.
      { subst acc1. destruct d as [[|item items]|]; exact E. }
      split.
      { rewrite T, (eff_trace _ _ _ _ _ F). now rewrite app_assoc. }
      intros url params. rewrite in_app_iff, G. split.
      * intros [(-> & r & Hin & Hr & ->)|Hin].
        -- split; [reflexivity|]. exists r. split; [now right|auto].
        -- apply (eff_only _ _ _ _ _ F) in Hin as [-> ->].
           split; [reflexivity|]. exists repo. split; [now left|auto].
      * intros (-> & r & [<-|Hin] & Hr & ->).
        -- right. exact (eff_some _ _ _ _ _ F).
        -- left. split; [reflexivity|]. now exists r.
Qed.

(** C9. The GET requests issued by [get_language_stats] are exactly those
    for the repositories that are not forks among the first 30 elements of
    the list; the result and the requests are the same for every list with
    the same first 30 elements, so a repository from position 31 on is never
    asked about, however many forks precede it. *)
Theorem forks_use_up_the_sample (w : World) (username : string)
    (repos : list Repo) (s : State) :
  exists out s' evs,
    get_language_stats w username repos s = (Ok out, s') /\
    trace s' = evs ++ trace s /\
    (forall url params,
       In (EvGet url params) evs <->
       params = None /\
       exists r, In r (firstn 30 repos) /\ repo_fork r = false /\
                 url = languages_url username r) /\
    (forall repos',
       firstn 30 repos' = firstn 30 repos ->
       get_language_stats w username repos' s = (Ok out, s')).
Proof.
  destruct (languages_loop_trace w username (firstn 30 repos) ([], []) s)
    as (acc & s' & evs & E & T & G).
  eexists _, s', evs. split.
  { unfold get_language_stats, bind. rewrite E. reflexivity. }
  split; [exact T|]. split; [exact G|].
  intros repos' H. unfold get_language_stats, bind. now rewrite H, E.
Qed.

Lemma forks_use_up_the_sample_witness :
  get_language_stats polyglot_world "octocat"
    (repeat (sample_repo "f" 0 true) 30 ++ [sample_repo "late" 9 false])
    initial
  = get_language_stats polyglot_world "octocat"
      (repeat (sample_repo "f" 0 true) 30) initial /\
  trace (snd (get_language_stats polyglot_world "octocat"
                (repeat (sample_repo "f" 0 true) 30
                   ++ [sample_repo "late" 9 false]) initial)) = [].
Proof.
  destruct (forks_use_up_the_sample polyglot_world "octocat"
              (repeat (sample_repo "f" 0 true) 30) initial)
    as (out & s' & evs & E & _ & _ & P).
  rewrite E. split.
  - apply P. reflexivity.
  - reflexivity.
Defined.

(** ** The two mappings agree *)

Lemma tally_inv_empty rs : tally_inv rs ([], []).
Proof.
  split; cbn; [reflexivity|constructor|intros ? ? []].
Qed.

Lemma added_name_nonempty (names : gset string) (n : string) :
  names ∪ {[n]} <> ∅.
Proof.
  intros H.
  assert (Hn : n ∈ names ∪ {[n]})
    by (apply elem_of_union_r; now apply elem_of_singleton).
  rewrite H in Hn. now apply not_elem_of_empty in Hn.
Qed.

Lemma add_language_inv rs repo acc item :
  In repo rs -> repo_fork repo = false ->
  tally_inv rs acc -> tally_inv rs (add_language repo acc item).
Proof.
  intros Hin Hf [K N Hacc]. destruct acc as [languages language_repos].
  destruct item as [lang bytes_count]. cbn [add_language fst snd] in *.
  split; cbn [fst snd].
  - now apply keys_dict_upd.
  - now apply keys_nodup_upd.
  - intros lang' names Hnames.
    apply in_dict_upd in Hnames
      as [Hold|(-> & [->|(old & Hold & ->)])].
    + exact (Hacc _ _ Hold).
    + cbn [default from_option]. split; [apply added_name_nonempty|].
      intros n Hn. exists repo. repeat split; [assumption..|].
      apply elem_of_union in Hn as [Hn|Hn].
      * now apply not_elem_of_empty in Hn.
      * now apply elem_of_singleton in Hn.
    + cbn [default from_option]. split; [apply added_name_nonempty|].
      intros n Hn. apply elem_of_union in Hn as [Hn|Hn].
      * destruct (Hacc lang old Hold) as [_ Hall]. now apply Hall.
      * exists repo. repeat split; [assumption..|].
        now apply elem_of_singleton in Hn.
Qed.

Lemma tally_repo_inv rs ri acc :
  In (fst ri) rs -> repo_fork (fst ri) = false ->
  tally_inv rs acc -> tally_inv rs (tally_repo acc ri).
Proof.
  intros Hin Hf. unfold tally_repo. generalize (snd ri). intros items.
  revert acc. induction items as [|item items IH]; intros acc Hinv;
    cbn [fold_left]; [exact Hinv|].
  apply IH. now apply add_language_inv.
Qed.

Lemma tally_keeps_inv rs fetched : forall acc,
  Forall (fun ri => repo_fork (fst ri) = false /\ In (fst ri) rs) fetched ->
  tally_inv rs acc -> tally_inv rs (tally fetched acc).
Proof.
  unfold tally. induction fetched as [|ri fetched IH]; intros acc Hall Hinv;
    cbn [fold_left]; [exact Hinv|].
  inversion Hall as [|? ? [Hf Hin] Hrest]; subst.
  apply IH; [exact Hrest|]. now apply tally_repo_inv.
Qed.

(** C10. The two mappings returned by [get_language_stats] list the same
    languages in the same order, each once; every list of contributing
    repositories is non-empty and names only repositories that are not
    forks among the first 30 of the input. *)
Theorem get_language_stats_keys_agree (w : World) (username : string)
    (repos : list Repo) (s : State) :
  exists languages lang_repos s',
    get_language_stats w username repos s = (Ok (languages, lang_repos), s') /\
    keys languages = keys lang_repos /\
    List.NoDup (keys languages) /\
    forall lang (names : list string),
      In (lang, names) lang_repos ->
      names <> [] /\
      forall n, In n names ->
        exists r, In r (firstn 30 repos) /\ repo_fork r = false /\
                  repo_name r = n.
Proof.
  destruct (fetch_languages_total w username (sampled repos) s)
    as (fetched & s' & F).
  pose proof (fetched_are_sampled w username repos s fetched s' F) as Hall.
  pose proof (tally_keeps_inv (firstn 30 repos) fetched ([], []) Hall
                (tally_inv_empty _)) as [K N I].
  eexists _, _, s'.
  split; [exact (get_language_stats_value w username repos s fetched s' F)|].
  split; [|split; [exact N|]].
  - rewrite K. unfold keys. now rewrite map_map.
  - intros lang names Hin.
    apply in_map_iff in Hin as ([lang' set] & [= <- <-] & Hin).
    cbn [fst snd]. destruct (I lang' set Hin) as [Hne Hnames]. split.
    + intros Hnil. apply Hne. now apply elements_empty_inv in Hnil as ->%leibniz_equiv.
    + intros n Hn. apply Hnames. apply elem_of_elements.
      now apply list_elem_of_In.
Qed.

Lemma get_language_stats_keys_agree_witness :
  exists languages lang_repos,
    fst (get_language_stats polyglot_world "octocat" four_repos initial)
      = Ok (languages, lang_repos) /\
    keys languages = ["Python"; "Coq"] /\
    keys lang_repos = ["Python"; "Coq"] /\
    forall names, In ("Coq", names) lang_repos -> names <> [].
Proof.
  destruct (get_language_stats_keys_agree polyglot_world "octocat" four_repos
              initial) as (languages & lang_repos & s' & E & K & _ & I).
  exists languages, lang_repos. rewrite E. split; [reflexivity|].
  assert (Hk : keys languages = ["Python"; "Coq"]).
  { change languages
      with (fst (languages, lang_repos)).
    replace (languages, lang_repos)
      with (match fst (get_language_stats polyglot_world "octocat"
                         four_repos initial) with
            | Ok out => out
            | _ => ([], [])
            end) by now rewrite E.
    vm_compute. reflexivity. }
  split; [exact Hk|]. split; [now rewrite <- K|].
  intros names Hin. exact (proj1 (I "Coq" names Hin)).
Defined.

(** * Further properties *)

(** ** The shape of one request *)

Ltac solve_shape H :=
  split;
  [ reflexivity | cbn; lia | cbn; lia | reflexivity | cbn; lia | cbn; lia
  | cbn; intros Hc; first [discriminate Hc | split; [reflexivity|eauto]]
  | cbn; intros Hp;
    first [ repeat split; reflexivity
          | specialize (Hp _ H); congruence ] ].

Lemma make_request_shape {A} w (api : nat -> Outcome A) url params s :
  exists v s' evs,
    make_request w api url params s = (Ok v, s') /\
    request_shape api s s' evs.
Proof.
  destruct (api (gets s)) as [msg|r] eqn:H.
  - rewrite (make_request_transport w api url params s msg H).
    eexists _, _, [_; _]. split; [reflexivity|].
    split;
      [ reflexivity | cbn; lia | cbn; lia | reflexivity | cbn; lia | cbn; lia
      | cbn; discriminate | intros _; repeat split; reflexivity ].
  - destruct (is_rate_limited r) eqn:L.
    + destruct (int_of_header (x_ratelimit_reset r)
                  (clock w (ticks s) + 60)%Q) as [reset_time|e|] eqn:I.
      * rewrite (make_request_retry w api url params s r reset_time H L I).
        cbv zeta. set (wt := Z.max _ 60).
        destruct (api (S (gets s))) as [msg|r2].
        -- eexists _, _, [_; _; _; _; _].
           split; [reflexivity|solve_shape H].
        -- match goal with |- context [settle url r2 ?s0] =>
             destruct (settle_cases url r2 s0) as [[a ->]|[e ->]] end.
           ++ eexists _, _, [_; _; _; _].
              split; [reflexivity|solve_shape H].
           ++ eexists _, _, [_; _; _; _; _].
              split; [reflexivity|solve_shape H].
      * destruct (x_ratelimit_reset r) as [[z|what]|] eqn:B; try discriminate.
        cbn in I. injection I as <-.
        rewrite (make_request_bad_header w api url params s r what H L B).
        eexists _, _, [_; _]. split; [reflexivity|solve_shape H].
      * destruct (x_ratelimit_reset r) as [[z|what]|]; discriminate.
    + rewrite (make_request_plain w api url params s r H L).
      match goal with |- context [settle url r ?s0] =>
        destruct (settle_cases url r s0) as [[a ->]|[e ->]] end.
      * eexists _, _, [_]. split; [reflexivity|solve_shape H].
      * eexists _, _, [_; _]. split; [reflexivity|solve_shape H].
Qed.

Lemma settle_some_inv {A} url (r : Response A) s a s' :
  settle url r s = (Ok (Some a), s') ->
  json_body r = Some a /\ is_error_status (status_code r) = false /\ s' = s.
Proof.
  destruct (is_error_status (status_code r)) eqn:E.
  - rewrite settle_error by exact E. discriminate.
  - destruct (json_body r) as [b|] eqn:J.
    + rewrite (settle_data url r s b E J). intros [= <- <-]. auto.
    + rewrite settle_undecodable by assumption. discriminate.
Qed.

(** A first response that is no rate-limit notice, has no error status
    and a JSON body is returned as it is, after that single GET: nothing is
    printed, no clock is read and there is no sleep. *)
Theorem make_request_returns_body {A} (w : World) (api : nat -> Outcome A)
    (url : string) (params : Params) (s : State) (r : Response A) (a : A) :
  api (gets s) = Reply r ->
  is_rate_limited r = false ->
  is_error_status (status_code r) = false ->
  json_body r = Some a ->
  make_request w api url params s
  = (Ok (Some a), mkState (S (gets s)) (ticks s) (EvGet url params :: trace s)).
Proof.
  intros H L E J. rewrite (make_request_plain w api url params s r H L).
  now apply settle_data.
Qed.

Lemma make_request_returns_body_witness :
  make_request paged_world (repos_api paged_world) "u" None
    (mkState 1 0 [])
  = (Ok (Some [sample_repo "a" 5 false; sample_repo "b" 12 false;
               sample_repo "c" 1 true]),
     mkState 2 0 [EvGet "u" None]).
Proof.
  exact (make_request_returns_body paged_world (repos_api paged_world) "u"
           None (mkState 1 0 []) _ _ eq_refl eq_refl eq_refl eq_refl).
Defined.

(** X1. Data returned by [make_request] is always the JSON body of the last
    response received, the first or the retried one, and that response has
    no error status; no error line is printed on the way. *)
Theorem make_request_data_is_a_body {A} (w : World) (api : nat -> Outcome A)
    (url : string) (params : Params) (s s' : State) (a : A) :
  make_request w api url params s = (Ok (Some a), s') ->
  (exists r,
     api (Nat.pred (gets s')) = Reply r /\
     json_body r = Some a /\
     is_error_status (status_code r) = false) /\
  (gets s' = S (gets s) \/ gets s' = S (S (gets s))) /\
  (exists evs,
     trace s' = evs ++ trace s /\
     forall u e, ~ In (EvPrint (LError u e)) evs).
Proof.
  destruct (api (gets s)) as [msg|r] eqn:H.
  - rewrite (make_request_transport w api url params s msg H). discriminate.
  - destruct (is_rate_limited r) eqn:L.
    + destruct (int_of_header (x_ratelimit_reset r)
                  (clock w (ticks s) + 60)%Q) as [reset_time|e|] eqn:I.
      * rewrite (make_request_retry w api url params s r reset_time H L I).
        cbv zeta. set (wt := Z.max _ 60).
        destruct (api (S (gets s))) as [msg|r2] eqn:H2; [discriminate|].
        intros E. apply settle_some_inv in E as (J & Es & ->). cbn.
        split; [exists r2; auto|]. split; [auto|].
        exists [EvGet url params; EvSleep wt; EvPrint (LRateLimit wt);
                EvGet url params].
        split; [reflexivity|]. cbn. intros u e. intuition discriminate.
      * destruct (x_ratelimit_reset r) as [[z|what]|] eqn:B; try discriminate.
        rewrite (make_request_bad_header w api url params s r what H L B).
        discriminate.
      * destruct (x_ratelimit_reset r) as [[z|what]|]; discriminate.
    + rewrite (make_request_plain w api url params s r H L).
      intros E. apply settle_some_inv in E as (J & Es & ->). cbn.
      split; [exists r; auto|]. split; [auto|].
      exists [EvGet url params].
      split; [reflexivity|]. cbn. intros u e. intuition discriminate.
Qed.

Lemma make_request_data_is_a_body_witness :
  exists r,
    repos_api paged_world 1%nat = Reply r /\
    json_body r = Some [sample_repo "a" 5 false; sample_repo "b" 12 false;
                        sample_repo "c" 1 true] /\
    is_error_status (status_code r) = false.
Proof.
  exact (proj1 (make_request_data_is_a_body paged_world
                  (repos_api paged_world) "u" None (mkState 1 0 []) _ _
                  eq_refl)).
Defined.

(** X2. One call issues one or two GETs and never writes a file; it sleeps
    at most once; and unless its first response is a rate-limit notice it
    issues exactly one GET, does not sleep and does not read the clock. *)
Theorem make_request_budget {A} (w : World) (api : nat -> Outcome A)
    (url : string) (params : Params) (s : State) :
  exists v s' evs,
    make_request w api url params s = (Ok v, s') /\
    trace s' = evs ++ trace s /\
    gets s' = (gets s + count_gets evs)%nat /\
    (1 <= count_gets evs <= 2)%nat /\
    (length (sleeps evs) <= 1)%nat /\
    writes evs = [] /\
    ((forall r, api (gets s) = Reply r -> is_rate_limited r = false) ->
     count_gets evs = 1%nat /\ sleeps evs = [] /\ ticks s' = ticks s).
Proof.
  destruct (make_request_shape w api url params s) as (v & s' & evs & E & Sh).
  exists v, s', evs. destruct Sh. auto 10.
Qed.

Lemma make_request_budget_witness :
  exists v s' evs,
    make_request paged_world (repos_api paged_world) "u" None initial
      = (Ok v, s') /\
    trace s' = evs ++ [] /\
    count_gets evs = 1%nat /\ sleeps evs = [] /\ ticks s' = 0%nat.
Proof.
  destruct (make_request_budget paged_world (repos_api paged_world) "u" None
              initial) as (v & s' & evs & E & T & _ & _ & _ & _ & P).
  exists v, s', evs. split; [exact E|]. split; [exact T|].
  apply P. intros r [= <-]. reflexivity.
Defined.

(** ** More on rate limiting *)








(** ** Detecting the rate-limit notice *)

Lemma app_String (c : ascii) (a b : string) :
  String c a +:+ b = String c (a +:+ b).
Proof. reflexivity. Qed.

Lemma app_Empty (b : string) : "" +:+ b = b.
Proof. reflexivity. Qed.

Lemma prefix_spec (n h : string) :
  String.prefix n h = true <-> exists post, h = n +:+ post.
Proof.
  revert h. induction n as [|c n IH]; intros h.
  - split; [intros _; now exists h|intros _; now destruct h].
  - destruct h as [|c' h]; cbn [String.prefix].
    + split; [discriminate|intros [post Hp]; discriminate].
    + destruct (ascii_dec c c') as [->|Hne].
      * rewrite IH. split; intros [post Hp]; exists post;
          rewrite app_String in *; congruence.
      * split; [discriminate|].
        intros [post Hp]. rewrite app_String in Hp. congruence.
Qed.

Lemma contains_spec (n h : string) :
  contains n h = true <-> exists pre post, h = pre +:+ n +:+ post.
Proof.
  induction h as [|c h IH]; cbn [contains]; rewrite orb_true_iff, prefix_spec.
  - split.
    + intros [[post Hp]|Hf]; [now exists "", post|discriminate].
    + intros (pre & post & Hp). left.
      destruct pre; [now exists post|discriminate].
  - rewrite IH. split.
    + intros [[post Hp]|(pre & post & Hp)].
      * now exists "", post.
      * exists (String c pre), post. rewrite app_String. now rewrite Hp.
    + intros (pre & post & Hp). destruct pre as [|c' pre].
      * left. now exists post.
      * right. exists pre, post. rewrite app_String in Hp. congruence.
Qed.

Lemma lower_app (a b : string) : lower (a +:+ b) = lower a +:+ lower b.
Proof.
  induction a as [|c a IH]; [reflexivity|].
  rewrite app_String. cbn [lower]. now rewrite IH.
Qed.

Lemma lower_app_inv (t a b : string) :
  lower t = a +:+ b ->
  exists t1 t2, t = t1 +:+ t2 /\ lower t1 = a /\ lower t2 = b.
Proof.
  revert t. induction a as [|c a IH]; intros t H.
  - now exists "", t.
  - rewrite app_String in H.
    destruct t as [|c' t]; cbn [lower] in H; [discriminate|].
    injection H as Hc Ht. destruct (IH t Ht) as (t1 & t2 & -> & <- & <-).
    exists (String c' t1), t2. cbn [lower]. now rewrite Hc.
Qed.

(** X5. A response counts as a rate-limit notice exactly when its status is
    403 and its text has a stretch that reads "rate limit" once put in
    lower case: the letter case of the notice does not matter. *)
Theorem rate_limit_detection {A} (r : Response A) :
  is_rate_limited r = true <->
  status_code r = 403 /\
  exists pre v post,
    text r = pre +:+ v +:+ post /\ lower v = "rate limit".
Proof.
  unfold is_rate_limited. rewrite andb_true_iff, Z.eqb_eq, contains_spec.
  split; intros [St Hc]; (split; [exact St|]).
  - destruct Hc as (pre & post & Hp).
    apply lower_app_inv in Hp as (t1 & t23 & Ht & <- & H23).
    apply lower_app_inv in H23 as (t2 & t3 & -> & Hv & <-).
    now exists t1, t2, t3.
  - destruct Hc as (pre & v & post & Ht & Hv).
    exists (lower pre), (lower post). now rewrite Ht, !lower_app, Hv.
Qed.

Lemma rate_limit_detection_witness :
  is_rate_limited (@mkResponse unit 403 "API Rate Limit Exceeded" None None)
  = true.
Proof.
  apply (proj2 (rate_limit_detection
                  (@mkResponse unit 403 "API Rate Limit Exceeded" None None))).
  split; [reflexivity|].
  exists "API ", "Rate Limit", " Exceeded". split; reflexivity.
Defined.

(** ** More on pagination *)

Lemma repositories_loop_full w username fuel : forall repos page s full s1,
  fetch_pages w username fuel page s = (Ok full, s1) ->
  Forall full_page full ->
  repositories_loop w username fuel repos page s = (Timeout, s1).
Proof.
  induction fuel as [|fuel IH]; intros repos page s full s1 F A;
    cbn [fetch_pages repositories_loop] in *.
  - now injection F as <- <-.
  - unfold bind in *.
    destruct (make_request_effect w (repos_api w) (repos_url username)
                (repos_params page) s) as (d & s0 & evs & E & _).
    rewrite E in *.
    destruct (fetch_pages_total w username fuel (page + 1) s0)
      as (rest & s2 & E').
    rewrite E' in F. injection F as <- <-.
    inversion A as [|? ? Hd Hrest]; subst. unfold full_page in Hd.
    destruct d as [[|r l]|]; cbn [page_items] in Hd; try (cbn in Hd; lia).
    destruct (Nat.ltb_spec (length (r :: l)) 100) as [Hlt|_]; [lia|].
    exact (IH _ _ _ _ _ E' Hrest).
Qed.

(** X6. The loop has no bound of its own: as long as every page comes back
    with 100 repositories or more, it asks for the next one, so that no
    number of iterations is enough for it to return. *)
Theorem get_repositories_goes_on_while_pages_are_full (w : World)
    (username : string) (fuel : nat) (s s1 : State)
    (full : list (option (list Repo))) :
  fetch_pages w username fuel 1 s = (Ok full, s1) ->
  Forall full_page full ->
  get_repositories w username fuel s = (Timeout, s1).
Proof.
  intros F A.
  now apply (repositories_loop_full w username fuel [] 1 s full).
Qed.

Lemma get_repositories_goes_on_while_pages_are_full_witness :
  fst (get_repositories endless_world "octocat" 3 initial) = Timeout.
Proof.
  refine (f_equal fst
    (get_repositories_goes_on_while_pages_are_full endless_world "octocat" 3
       initial _ _ eq_refl _)).
  repeat constructor.
Defined.

Lemma repositories_loop_requests w username fuel :
  forall repos page s out s',
  repositories_loop w username fuel repos page s = (Ok out, s') ->
  exists n evs,
    (1 <= n <= fuel)%nat /\
    trace s' = evs ++ trace s /\
    (forall url params,
       In (EvGet url params) evs <->
       url = repos_url username /\
       exists p, page <= p < page + Z.of_nat n /\ params = repos_params p) /\
    writes evs = [] /\
    (length repos + 100 * (n - 1) <= length out)%nat.
Proof.
  induction fuel as [|fuel IH]; intros repos page s out s' E;
    cbn [repositories_loop] in E; [discriminate|].
  unfold bind in E.
  destruct (make_request_effect w (repos_api w) (repos_url username)
              (repos_params page) s) as (d & s0 & evs0 & Ed & F & _).
  rewrite Ed in E.
  assert (Hw0 : writes evs0 = []).
  { pose proof (eff_no_write _ _ _ _ _ F) as Hn. clear -Hn.
    induction evs0 as [|ev evs0 IH0]; [reflexivity|].
    cbn. destruct ev; cbn; try (apply IH0; intros f c Hin;
      apply (Hn f c); now right).
    exfalso. apply (Hn path content). now left. }
  assert (Hone : forall out1,
            (Ok out1, s0) = (Ok out, s') ->
            (length repos <= length out1)%nat ->
            exists n evs,
              (1 <= n <= S fuel)%nat /\
              trace s' = evs ++ trace s /\
              (forall url params,
                 In (EvGet url params) evs <->
                 url = repos_url username /\
                 exists p, page <= p < page + Z.of_nat n /\
                           params = repos_params p) /\
              writes evs = [] /\
              (length repos + 100 * (n - 1) <= length out)%nat).
  { intros out1 [= <- <-] Hlen. exists 1%nat, evs0.
    split; [lia|]. split; [exact (eff_trace _ _ _ _ _ F)|].
    split; [|split; [exact Hw0|lia]].
    intros url params. split.
    - intros Hin. apply (eff_only _ _ _ _ _ F) in Hin as [-> ->].
      split; [reflexivity|]. exists page. split; [lia|reflexivity].
    - intros (-> & p & Hp & ->). replace p with page by lia.
      exact (eff_some _ _ _ _ _ F). }
  destruct d as [[|r data]|].
  - apply (Hone repos); [exact E|lia].
  - destruct (Nat.ltb_spec (length (r :: data)) 100) as [Hlt|Hge].
    + apply (Hone (repos ++ r :: data)); [exact E|].
      rewrite length_app. lia.
    + apply IH in E as (n & evs & Hn & T & G & Hw & Hlen).
      exists (S n), (evs ++ evs0).
      split; [lia|]. split.
      { rewrite T, (eff_trace _ _ _ _ _ F). now rewrite app_assoc. }
      split; [|split].
      * intros url params. rewrite in_app_iff, G. split.
        -- intros [(-> & p & Hp & ->)|Hin].
           ++ split; [reflexivity|]. exists p. split; [lia|reflexivity].
           ++ apply (eff_only _ _ _ _ _ F) in Hin as [-> ->].
              split; [reflexivity|]. exists page. split; [lia|reflexivity].
        -- intros (-> & p & Hp & ->).
           destruct (Z.eq_dec p page) as [->|Hne].
           ++ right. exact (eff_some _ _ _ _ _ F).
           ++ left. split; [reflexivity|]. exists p. split; [lia|reflexivity].
      * unfold writes in *. now rewrite flat_map_app, Hw, Hw0.
      * rewrite length_app in Hlen. cbn [length] in *. lia.
  - apply (Hone repos); [exact E|lia].
Qed.

(** X7. When [get_repositories] returns, the GETs it has issued are all
    addressed to the repository list of the user, with [per_page] 100, and
    the pages asked for are exactly 1 to [n] for the number [n] of
    iterations made; all pages but the last being full, the result holds at
    least [100 * (n - 1)] repositories. No file is written. *)
Theorem get_repositories_requests (w : World) (username : string)
    (fuel : nat) (s s' : State) (repos : list Repo) :
  get_repositories w username fuel s = (Ok repos, s') ->
  exists n evs,
    (1 <= n <= fuel)%nat /\
    trace s' = evs ++ trace s /\
    (forall url params,
       In (EvGet url params) evs <->
       url = repos_url username /\
       exists p, 1 <= p <= Z.of_nat n /\ params = repos_params p) /\
    writes evs = [] /\
    (100 * (n - 1) <= length repos)%nat.
Proof.
  intros E. unfold get_repositories in E.
  apply repositories_loop_requests in E as (n & evs & Hn & T & G & Hw & Hlen).
  exists n, evs. split; [exact Hn|]. split; [exact T|].
  split; [|split; [exact Hw|cbn in Hlen; lia]].
  intros url params. rewrite G. split;
    intros (-> & p & Hp & ->); (split; [reflexivity|]); exists p;
    (split; [lia|reflexivity]).
Qed.

Lemma get_repositories_requests_witness :
  exists n evs,
    (1 <= n <= 2)%nat /\
    trace (snd (get_repositories paged_world "octocat" 2 initial))
      = evs ++ [] /\
    (forall url params,
       In (EvGet url params) evs <->
       url = repos_url "octocat" /\
       exists p, 1 <= p <= Z.of_nat n /\ params = repos_params p) /\
    writes evs = [] /\
    (100 * (n - 1) <= 103)%nat.
Proof.
  exact (get_repositories_requests paged_world "octocat" 2 initial
           (snd (get_repositories paged_world "octocat" 2 initial))
           (repeat (sample_repo "bulk" 0 false) 100
              ++ [sample_repo "a" 5 false; sample_repo "b" 12 false;
                  sample_repo "c" 1 true])
           eq_refl).
Defined.

(** ** More on language sampling *)



Lemma dict_upd_sum (k : string) (b : Z) (d : dict Z) :
  py_sum (map snd (dict_upd k (fun o => default 0 o + b) d))
  = py_sum (map snd d) + b.
Proof.
  induction d as [|[k0 v] d IH]; cbn [dict_upd map snd].
  - rewrite py_sum_cons. unfold py_sum. cbn. lia.
  - destruct (String.eqb k k0); cbn [map snd]; rewrite !py_sum_cons.
    + cbn. lia.
    + rewrite IH. lia.
Qed.

Lemma add_languages_sum repo items : forall acc,
  py_sum (map snd (fst (fold_left (add_language repo) items acc)))
  = py_sum (map snd (fst acc)) + map_bytes items.
Proof.
  unfold map_bytes.
  induction items as [|[k b] items IH]; intros [languages language_repos];
    cbn [fold_left map snd].
  - unfold py_sum at 3. cbn. lia.
  - rewrite IH. cbn [add_language fst]. rewrite dict_upd_sum, py_sum_cons. lia.
Qed.

Lemma tally_sum fetched : forall acc,
  py_sum (map snd (fst (tally fetched acc)))
  = py_sum (map snd (fst acc)) + all_bytes fetched.
Proof.
  unfold tally, all_bytes.
  induction fetched as [|ri fetched IH]; intros acc; cbn [fold_left map].
  - unfold py_sum at 3. cbn. lia.
  - rewrite IH. unfold tally_repo. rewrite add_languages_sum, py_sum_cons.
    lia.
Qed.

(** X9. No byte is lost or counted twice: the totals returned add up to
    the bytes of all the language maps obtained. *)
Theorem get_language_stats_conserves_bytes (w : World) (username : string)
    (repos : list Repo) (s : State) (fetched : list (Repo * LangMap))
    (s' : State) :
  fetch_languages w username (sampled repos) s = (Ok fetched, s') ->
  exists languages lang_repos,
    get_language_stats w username repos s = (Ok (languages, lang_repos), s') /\
    py_sum (map snd languages) = all_bytes fetched.
Proof.
  intros F. eexists _, _.
  split; [exact (get_language_stats_value w username repos s _ _ F)|].
  rewrite tally_sum. reflexivity.
Qed.

Lemma get_language_stats_conserves_bytes_witness :
  exists languages lang_repos,
    fst (get_language_stats polyglot_world "octocat" four_repos initial)
      = Ok (languages, lang_repos) /\
    py_sum (map snd languages) = 450.
Proof.
  destruct (get_language_stats_conserves_bytes polyglot_world "octocat"
              four_repos initial _ _ eq_refl)
    as (languages & lang_repos & E & T).
  exists languages, lang_repos. rewrite E. split; [reflexivity|].
  rewrite T. reflexivity.
Defined.

Lemma add_language_names lang n repo acc item :
  n ∈ names_of lang (snd (add_language repo acc item)) <->
  n ∈ names_of lang (snd acc) \/
  (String.eqb lang (fst item) = true /\ n = repo_name repo).
Proof.
  destruct acc as [languages language_repos]. destruct item as [k b].
  unfold names_of. cbn [add_language fst snd]. rewrite dict_get_upd.
  destruct (String.eqb_spec lang k) as [->|Hne]; cbn [default from_option].
  - unfold id. rewrite elem_of_union, elem_of_singleton. intuition.
  - intuition discriminate.
Qed.

Lemma add_languages_names lang n repo items : forall acc,
  n ∈ names_of lang (snd (fold_left (add_language repo) items acc)) <->
  n ∈ names_of lang (snd acc) \/
  (has_language lang items = true /\ n = repo_name repo).
Proof.
  unfold has_language.
  induction items as [|item items IH]; intros acc; cbn [fold_left existsb].
  - intuition discriminate.
  - rewrite IH, add_language_names, orb_true_iff. intuition.
Qed.

Lemma tally_names lang n fetched : forall acc,
  n ∈ names_of lang (snd (tally fetched acc)) <->
  n ∈ names_of lang (snd acc) \/
  exists ri, In ri fetched /\ repo_name (fst ri) = n /\
             has_language lang (snd ri) = true.
Proof.
  unfold tally.
  induction fetched as [|ri fetched IH]; intros acc; cbn [fold_left].
  - split; [auto|intros [H|(ri & [] & _)]; exact H].
  - rewrite IH. unfold tally_repo. rewrite add_languages_names. split.
    + intros [[H|[Hh ->]]|(ri' & Hin & Hn & Hh)].
      * now left.
      * right. exists ri. split; [now left|auto].
      * right. exists ri'. split; [now right|auto].
    + intros [H|(ri' & [<-|Hin] & Hn & Hh)].
      * left. now left.
      * left. right. auto.
      * right. now exists ri'.
Qed.

Lemma dict_get_map {V W} (f : V -> W) (k : string) (d : dict V) :
  dict_get k (map (fun kv => (fst kv, f (snd kv))) d)
  = option_map f (dict_get k d).
Proof.
  induction d as [|[k0 v] d IH]; cbn [map dict_get fst snd]; [reflexivity|].
  destruct (String.eqb k k0); [reflexivity|exact IH].
Qed.

(** X10. The second mapping is the exact reverse index of the maps
    obtained: a repository name is listed under a language if and only if
    the language map obtained for a sampled repository of that name has
    that language. *)
Theorem get_language_stats_reverse_index (w : World) (username : string)
    (repos : list Repo) (s : State) (fetched : list (Repo * LangMap))
    (s' : State) :
  fetch_languages w username (sampled repos) s = (Ok fetched, s') ->
  exists languages lang_repos,
    get_language_stats w username repos s = (Ok (languages, lang_repos), s') /\
    forall lang n,
      In n (default [] (dict_get lang lang_repos)) <->
      exists ri, In ri fetched /\ repo_name (fst ri) = n /\
                 has_language lang (snd ri) = true.
Proof.
  intros F. eexists _, _.
  split; [exact (get_language_stats_value w username repos s _ _ F)|].
  intros lang n. rewrite dict_get_map.
  pose proof (tally_names lang n fetched ([], [])) as T.
  unfold names_of in T at 1.
  destruct (dict_get lang (snd (tally fetched ([], [])))) as [names|];
    cbn [option_map default from_option] in *.
  - unfold id. rewrite <- list_elem_of_In, elem_of_elements, T.
    unfold names_of. cbn. split; [intros [H|H]; [|exact H]|auto].
    now apply not_elem_of_empty in H.
  - split; [intros []|]. intros H.
    assert (Hn : n ∈ (∅ : gset string)) by (apply T; now right).
    now apply not_elem_of_empty in Hn.
Qed.

Lemma get_language_stats_reverse_index_witness :
  exists languages lang_repos,
    fst (get_language_stats polyglot_world "octocat" four_repos initial)
      = Ok (languages, lang_repos) /\
    In "d" (default [] (dict_get "Coq" lang_repos)) /\
    ~ In "b" (default [] (dict_get "Coq" lang_repos)).
Proof.
  destruct (get_language_stats_reverse_index polyglot_world "octocat"
              four_repos initial _ _ eq_refl)
    as (languages & lang_repos & E & T).
  exists languages, lang_repos. rewrite E. split; [reflexivity|]. split.
  - apply T. exists (sample_repo "d" 0 false, [("Coq", 50)]).
    split; [cbn; tauto|]. split; reflexivity.
  - intros H. apply T in H as (ri & Hin & Hn & Hh).
    cbn in Hin. destruct Hin as [<-|[<-|[<-|[]]]]; discriminate.
Defined.

(** ** More on aggregation *)

Lemma calculate_advanced_stats_value user repos :
  calculate_advanced_stats user repos
  = Ok {| total_repos := length repos;
          public_repos :=
            length (List.filter (fun r => negb (repo_private r)) repos);
          total_stars := py_sum (map repo_stargazers_count repos);
          total_forks := py_sum (map repo_forks_count repos);
          total_watchers := py_sum (map repo_watchers_count repos);
          total_size := py_sum (map repo_size repos);
          followers := user_followers user;
          following := user_following user;
          original_repos :=
            length (List.filter (fun r => negb (repo_fork r)) repos);
          forked_repos := length (List.filter (fun r => repo_fork r) repos);
          avg_stars_per_repo :=
            (inject_Z (py_sum (map repo_stargazers_count repos))
             / inject_Z
                 (Z.max
                    (Z.of_nat
                       (length
                          (List.filter (fun r => negb (repo_fork r)) repos)))
                    1))%Q;
          most_starred_repo :=
            match repos with
            | [] => "None"
            | x :: l => repo_name (first_max x l)
            end;
          most_starred_stars :=
            match repos with
            | [] => 0
            | x :: l => repo_stargazers_count (first_max x l)
            end |}.
Proof.
  unfold calculate_advanced_stats.
  rewrite py_truediv_nonzero by lia. cbn [rbind].
  destruct repos as [|r l]; reflexivity.
Qed.

Lemma filter_split_length {A} (f : A -> bool) (l : list A) :
  (length (List.filter (fun x => negb (f x)) l)
   + length (List.filter f l) = length l)%nat.
Proof.
  induction l as [|x l IH]; cbn [List.filter]; [reflexivity|].
  destruct (f x); cbn [negb length]; lia.
Qed.

(** X11. Original and forked repositories partition the list: their counts
    add up to the total, and the public ones are at most the total. *)
Theorem calculate_advanced_stats_counts (user : User) (repos : list Repo) :
  exists st,
    calculate_advanced_stats user repos = Ok st /\
    (original_repos st + forked_repos st = total_repos st)%nat /\
    (public_repos st <= total_repos st)%nat /\
    total_repos st = length repos.
Proof.
  eexists. split; [apply calculate_advanced_stats_value|].
  cbn [original_repos forked_repos total_repos public_repos].
  split; [apply filter_split_length|].
  split; [apply List.filter_length_le|reflexivity].
Qed.

Lemma first_max_spec l : forall pre best mid,
  (forall y, In y pre ->
     repo_stargazers_count y < repo_stargazers_count best) ->
  (forall y, In y mid ->
     repo_stargazers_count y <= repo_stargazers_count best) ->
  exists pre' post,
    pre ++ best :: mid ++ l = pre' ++ first_max best l :: post /\
    (forall y, In y pre' ->
       repo_stargazers_count y < repo_stargazers_count (first_max best l)) /\
    (forall y, In y post ->
       repo_stargazers_count y <= repo_stargazers_count (first_max best l)).
Proof.
  unfold first_max.
  induction l as [|x l IH]; intros pre best mid Hpre Hmid; cbn [fold_left].
  - exists pre, mid. now rewrite app_nil_r.
  - destruct (Z.ltb_spec (repo_stargazers_count best)
                (repo_stargazers_count x)) as [Hlt|Hge].
    + destruct (IH (pre ++ best :: mid) x []) as (pre' & post & E & H1 & H2).
      * intros y Hin. apply in_app_iff in Hin as [Hin|[<-|Hin]].
        -- specialize (Hpre y Hin). lia.
        -- exact Hlt.
        -- specialize (Hmid y Hin). lia.
      * intros y [].
      * exists pre', post. split; [|auto].
        rewrite <- E. rewrite <- !app_assoc. reflexivity.
    + destruct (IH pre best (mid ++ [x])) as (pre' & post & E & H1 & H2).
      * exact Hpre.
      * intros y Hin. apply in_app_iff in Hin as [Hin|[<-|[]]]; auto.
      * exists pre', post. split; [|auto].
        rewrite <- E. rewrite <- !app_assoc. reflexivity.
Qed.

(** X12. On a non-empty list the most starred repository is the first one,
    in list order, whose star count is the largest: every repository
    before it has fewer stars and none after it has more. *)
Theorem calculate_advanced_stats_most_starred (user : User)
    (repos : list Repo) :
  repos <> [] ->
  exists st pre m post,
    calculate_advanced_stats user repos = Ok st /\
    repos = pre ++ m :: post /\
    most_starred_repo st = repo_name m /\
    most_starred_stars st = repo_stargazers_count m /\
    (forall y, In y pre ->
       repo_stargazers_count y < repo_stargazers_count m) /\
    (forall y, In y post ->
       repo_stargazers_count y <= repo_stargazers_count m).
Proof.
  intros Hne. destruct repos as [|x l]; [contradiction|].
  destruct (first_max_spec l [] x []) as (pre & post & E & H1 & H2);
    [intros y []..|].
  eexists _, pre, (first_max x l), post.
  split; [apply calculate_advanced_stats_value|].
  split; [exact E|]. cbn [most_starred_repo most_starred_stars]. auto.
Qed.

Lemma calculate_advanced_stats_most_starred_witness :
  exists st,
    calculate_advanced_stats sample_user
      [sample_repo "a" 5 false; sample_repo "b" 12 false;
       sample_repo "c" 12 true] = Ok st /\
    most_starred_repo st = "b".
Proof.
  destruct (calculate_advanced_stats_most_starred sample_user
              [sample_repo "a" 5 false; sample_repo "b" 12 false;
               sample_repo "c" 12 true] ltac:(discriminate))
    as (st & pre & m & post & E & _ & Hn & _).
  exists st. split; [exact E|].
  injection E as <-. reflexivity.
Defined.

Lemma py_sum_map_perm {A} (f : A -> Z) (l l' : list A) :
  Permutation l l' -> py_sum (map f l) = py_sum (map f l').
Proof.
  induction 1; cbn [map]; rewrite ?py_sum_cons; lia.
Qed.

Lemma filter_length_perm {A} (f : A -> bool) (l l' : list A) :
  Permutation l l' ->
  length (List.filter f l) = length (List.filter f l').
Proof.
  induction 1; cbn [List.filter]; try congruence.
  - destruct (f x); cbn [length]; congruence.
  - destruct (f x), (f y); reflexivity.
Qed.

Lemma py_sum_app l1 l2 : py_sum (l1 ++ l2) = py_sum l1 + py_sum l2.
Proof.
  induction l1 as [|x l1 IH]; cbn [app]; rewrite ?py_sum_cons; [|lia].
  unfold py_sum at 2. cbn. lia.
Qed.

Lemma most_starred_is_max x l y :
  In y (x :: l) ->
  repo_stargazers_count y <= repo_stargazers_count (first_max x l).
Proof.
  destruct (first_max_spec l [] x []) as (pre & post & E & H1 & H2);
    [intros ? []..|].
  cbn [app] in E. rewrite E. intros Hin.
  apply in_app_iff in Hin as [Hin|[<-|Hin]].
  - specialize (H1 y Hin). lia.
  - lia.
  - exact (H2 y Hin).
Qed.

Lemma first_max_in x l : In (first_max x l) (x :: l).
Proof.
  destruct (first_max_spec l [] x []) as (pre & post & E & _);
    [intros ? []..|].
  cbn [app] in E. rewrite E. apply in_app_iff. right. now left.
Qed.

(** X13. The order of the repositories matters only for the name of the
    most starred one: two lists with the same repositories in different
    orders give the same counts, the same sums, the same average and the
    same largest star count. *)
Theorem calculate_advanced_stats_order (user : User) (repos repos' : list Repo) :
  Permutation repos repos' ->
  exists st st',
    calculate_advanced_stats user repos = Ok st /\
    calculate_advanced_stats user repos' = Ok st' /\
    total_repos st = total_repos st' /\
    public_repos st = public_repos st' /\
    original_repos st = original_repos st' /\
    forked_repos st = forked_repos st' /\
    total_stars st = total_stars st' /\
    total_forks st = total_forks st' /\
    total_watchers st = total_watchers st' /\
    total_size st = total_size st' /\
    avg_stars_per_repo st = avg_stars_per_repo st' /\
    most_starred_stars st = most_starred_stars st'.
Proof.
  intros P. eexists _, _.
  split; [apply calculate_advanced_stats_value|].
  split; [apply calculate_advanced_stats_value|].
  cbn [total_repos public_repos original_repos forked_repos total_stars
       total_forks total_watchers total_size avg_stars_per_repo
       most_starred_stars].
  rewrite (Permutation_length P).
  rewrite !(filter_length_perm _ _ _ P).
  rewrite !(py_sum_map_perm _ _ _ P).
  repeat (split; [reflexivity|]).
  destruct repos as [|x l], repos' as [|x' l']; try reflexivity.
  - now apply Permutation_nil in P.
  - symmetry in P. now apply Permutation_nil in P.
  - apply Z.le_antisymm; apply most_starred_is_max.
    + eapply Permutation_in; [exact P|apply first_max_in].
    + eapply Permutation_in; [symmetry; exact P|apply first_max_in].
Qed.

Lemma calculate_advanced_stats_order_witness :
  exists st st',
    calculate_advanced_stats sample_user
      [sample_repo "a" 5 false; sample_repo "b" 12 true] = Ok st /\
    calculate_advanced_stats sample_user
      [sample_repo "b" 12 true; sample_repo "a" 5 false] = Ok st' /\
    total_stars st = total_stars st' /\
    most_starred_stars st = most_starred_stars st'.
Proof.
  destruct (calculate_advanced_stats_order sample_user
              [sample_repo "a" 5 false; sample_repo "b" 12 true]
              [sample_repo "b" 12 true; sample_repo "a" 5 false]
              (perm_swap _ _ _))
    as (st & st' & E & E' & _ & _ & _ & _ & Hs & _ & _ & _ & _ & Hm).
  now exists st, st'.
Defined.

(** X14. Aggregating a list made of two parts adds up the counts and the
    sums of the parts, and the largest star count is the larger of the two
    when neither part is empty. *)
Theorem calculate_advanced_stats_append (user : User) (l1 l2 : list Repo) :
  exists st1 st2 st,
    calculate_advanced_stats user l1 = Ok st1 /\
    calculate_advanced_stats user l2 = Ok st2 /\
    calculate_advanced_stats user (l1 ++ l2) = Ok st /\
    total_repos st = (total_repos st1 + total_repos st2)%nat /\
    public_repos st = (public_repos st1 + public_repos st2)%nat /\
    original_repos st = (original_repos st1 + original_repos st2)%nat /\
    forked_repos st = (forked_repos st1 + forked_repos st2)%nat /\
    total_stars st = total_stars st1 + total_stars st2 /\
    total_forks st = total_forks st1 + total_forks st2 /\
    total_watchers st = total_watchers st1 + total_watchers st2 /\
    total_size st = total_size st1 + total_size st2 /\
    (l1 <> [] -> l2 <> [] ->
     most_starred_stars st
     = Z.max (most_starred_stars st1) (most_starred_stars st2)).
Proof.
  eexists _, _, _.
  split; [apply calculate_advanced_stats_value|].
  split; [apply calculate_advanced_stats_value|].
  split; [apply calculate_advanced_stats_value|].
  cbn [total_repos public_repos original_repos forked_repos total_stars
       total_forks total_watchers total_size most_starred_stars].
  rewrite !List.filter_app, !length_app, !map_app, !py_sum_app.
  repeat (split; [reflexivity|]).
  intros H1 H2. destruct l1 as [|x1 l1], l2 as [|x2 l2]; try contradiction.
  cbn [app].
  pose proof (first_max_in x1 (l1 ++ x2 :: l2)) as Hin.
  pose proof (most_starred_is_max x1 (l1 ++ x2 :: l2)) as Hmax.
  pose proof (first_max_in x1 l1) as Hin1.
  pose proof (first_max_in x2 l2) as Hin2.
  assert (H12 : forall y, In y (x1 :: l1 ++ x2 :: l2) <->
                          In y (x1 :: l1) \/ In y (x2 :: l2)).
  { intros y. change (x1 :: l1 ++ x2 :: l2) with ((x1 :: l1) ++ x2 :: l2).
    apply in_app_iff. }
  pose proof (Hmax _ (proj2 (H12 _) (or_introl Hin1))) as Ha.
  pose proof (Hmax _ (proj2 (H12 _) (or_intror Hin2))) as Hb.
  apply H12 in Hin as [Hin|Hin].
  - pose proof (most_starred_is_max x1 l1 _ Hin). lia.
  - pose proof (most_starred_is_max x2 l2 _ Hin). lia.
Qed.

Lemma calculate_advanced_stats_append_witness :
  exists st,
    calculate_advanced_stats sample_user
      ([sample_repo "a" 5 false] ++ [sample_repo "b" 12 true]) = Ok st /\
    most_starred_stars st = 12.
Proof.
  destruct (calculate_advanced_stats_append sample_user
              [sample_repo "a" 5 false] [sample_repo "b" 12 true])
    as (st1 & st2 & st & E1 & E2 & E & _ & _ & _ & _ & _ & _ & _ & _ & Hm).
  exists st. split; [exact E|].
  rewrite Hm by discriminate.
  injection E1 as <-. injection E2 as <-. reflexivity.
Defined.



(** ** More on percentages *)

Lemma py_sum_nonneg l : Forall (fun x => 0 <= x) l -> 0 <= py_sum l.
Proof.
  induction 1 as [|x l Hx _ IH]; [unfold py_sum; cbn; lia|].
  rewrite py_sum_cons. lia.
Qed.

Lemma py_sum_bounds_each l x :
  Forall (fun x => 0 <= x) l -> In x l -> x <= py_sum l.
Proof.
  induction 1 as [|y l Hy Hl IH]; intros Hin; [destruct Hin|].
  rewrite py_sum_cons. pose proof (py_sum_nonneg l Hl).
  destruct Hin as [->|Hin]; [lia|]. specialize (IH Hin). lia.
Qed.

Lemma percentage_bounds (t b : Z) :
  0 <= b <= t -> 0 < t ->
  (0 <= inject_Z b / inject_Z t * 100 <= 100)%Q.
Proof.
  intros Hb Ht. destruct t as [|p|p]; try lia.
  unfold Qle, Qdiv, Qmult, Qinv, inject_Z. cbn [Qnum Qden].
  rewrite ?Pos.mul_1_l, ?Pos.mul_1_r, ?Z.mul_1_r. split; lia.
Qed.

(** X16. When no byte count is negative and the total is positive, every
    percentage lies between 0 and 100. *)
Theorem lang_percentages_within_bounds (languages : dict Z) :
  Forall (fun item => 0 <= snd item) languages ->
  0 < py_sum (map snd languages) ->
  exists pct,
    lang_percentages languages = Ok pct /\
    Forall (fun p => (0 <= snd p <= 100)%Q) pct.
Proof.
  intros Hall Hpos. eexists. split; [now apply lang_percentages_positive|].
  assert (Hz : Forall (fun x => 0 <= x) (map snd languages)).
  { apply List.Forall_forall. intros x Hin.
    apply in_map_iff in Hin as (item & <- & Hin).
    exact (proj1 (List.Forall_forall _ _) Hall item Hin). }
  apply List.Forall_forall. intros p Hin.
  apply in_map_iff in Hin as (item & <- & Hin). cbn [percentage snd].
  apply percentage_bounds; [|exact Hpos]. split.
  - exact (proj1 (List.Forall_forall _ _) Hall item Hin).
  - apply py_sum_bounds_each; [exact Hz|now apply in_map].
Qed.

Lemma lang_percentages_within_bounds_witness :
  exists pct,
    lang_percentages [("Python", 300); ("Coq", 100)] = Ok pct /\
    Forall (fun p => (0 <= snd p <= 100)%Q) pct.
Proof.
  apply lang_percentages_within_bounds.
  - repeat constructor; cbn; lia.
  - reflexivity.
Defined.

(** ** More on the run *)

Ltac same_events :=
  repeat (rewrite <- app_assoc; cbn [app]); cbn [app];
  repeat (rewrite <- app_assoc; cbn [app]); reflexivity.

Lemma writes_app evs1 evs2 : writes (evs1 ++ evs2) = writes evs1 ++ writes evs2.
Proof. unfold writes. apply flat_map_app. Qed.

Lemma languages_loop_quiet w username rs : forall acc s,
  exists acc' s' evs,
    languages_loop w username rs acc s = (Ok acc', s') /\
    trace s' = evs ++ trace s /\
    writes evs = [].
Proof.
  induction rs as [|repo rest IH]; intros acc s; cbn [languages_loop].
  - now exists acc, s, [].
  - destruct (repo_fork repo); [apply IH|].
    unfold bind.
    destruct (make_request_shape w (langs_api w)
                (languages_url username repo) None s)
      as (d & s1 & evs1 & -> & Sh).
    set (acc1 := match d with
                 | Some (item :: items) =>
                     fold_left (add_language repo) (item :: items) acc
                 | _ => acc
                 end).
    destruct (IH acc1 s1) as (acc' & s' & evs & E & T & W).
    exists acc', s', (evs ++ evs1). split.
    + subst acc1. destruct d as [[|item items]|]; exact E.
    + split.
      * rewrite T, (shape_trace _ _ _ _ Sh). now rewrite app_assoc.
      * now rewrite writes_app, W, (shape_writes _ _ _ _ Sh).
Qed.

Lemma get_language_stats_quiet w username repos s :
  exists langs s' evs,
    get_language_stats w username repos s = (Ok langs, s') /\
    trace s' = evs ++ trace s /\
    writes evs = [].
Proof.
  destruct (languages_loop_quiet w username (firstn 30 repos) ([], []) s)
    as (acc & s' & evs & E & T & W).
  eexists _, s', evs. split; [|auto].
  unfold get_language_stats, bind. rewrite E. reflexivity.
Qed.

Lemma writes_print l evs : writes (EvPrint l :: evs) = writes evs.
Proof. reflexivity. Qed.

Lemma writes_write f c evs : writes (EvWrite f c :: evs) = (f, c) :: writes evs.
Proof. reflexivity. Qed.

Lemma finish_ok_inv format_joined template disk username u st b :
  finish format_joined template disk username u st = Ok b ->
  b = true /\
  exists joined,
    format_joined (replace_Z (user_created_at u)) = Ok joined /\
    written format_joined template disk username u st
    = [("README.md", template username u st joined)].
Proof.
  unfold finish, written.
  destruct (format_joined (replace_Z (user_created_at u))) as [joined|e|];
    cbn [rbind]; try discriminate.
  destruct (disk "README.md" (template username u st joined)) as [[]|e|];
    cbn [rbind]; try discriminate.
  intros [= <-]. split; [reflexivity|]. now exists joined.
Qed.

(** The rest of [run] once a non-empty repository list is in hand: its
    outcome is that of rendering and writing the README, and the only file
    it can write is the README, with the statistics of that list. *)
Lemma run_tail_trace w username format_joined template disk user
    (repos : list Repo) s :
  exists s' evs st,
    (print (LFound (length repos)) ;;;
     print (LText "🔍 Analyzing language usage...") ;;;
     langs <- get_language_stats w username repos ;;
     print (LText "📈 Calculating advanced statistics...") ;;;
     stats <- lift (calculate_advanced_stats user repos) ;;
     print (LText "📝 Generating README content...") ;;;
     readme_content <-
       lift (generate_modern_readme username format_joined template user stats
               (fst langs) (snd langs)) ;;
     print (LText "💾 Writing README.md...") ;;;
     write_file disk "README.md" readme_content ;;;
     print (LText "✅ Profile README generated successfully!") ;;;
     print (LText "📊 Stats Summary:") ;;;
     print (LItem (Z.of_nat (total_repos stats)) "repositories") ;;;
     print (LItem (total_stars stats) "total stars") ;;;
     print (LItem (Z.of_nat (length (fst langs))) "programming languages") ;;;
     ret true) s
    = (finish format_joined template disk username user st, s') /\
    trace s' = evs ++ trace s /\
    calculate_advanced_stats user repos = Ok st /\
    writes evs = written format_joined template disk username user st.
Proof.
  destruct (calculate_advanced_stats_total user repos) as [st Est].
  destruct (get_language_stats_quiet w username repos
              (logged (EvPrint (LText "🔍 Analyzing language usage..."))
                 (logged (EvPrint (LFound (length repos))) s)))
    as (langs & s1 & evs & E & T & W).
  unfold finish, written.
  destruct (format_joined (replace_Z (user_created_at user)))
    as [joined|e|] eqn:J.
  - destruct (disk "README.md" (template username user st joined))
      as [[]|e|] eqn:D.
    + eexists _, (_ :: _ :: _ :: _ :: _ :: _ :: _ :: _ :: _ :: evs ++ [_; _]),
        st.
      split; [|split; [|split; [exact Est|]]].
      * rewrite !bind_print. unfold bind at 1. rewrite E.
        rewrite bind_print. unfold bind at 1, lift at 1. rewrite Est.
        rewrite bind_print. unfold bind at 1, lift at 1.
        rewrite generate_modern_readme_value, J. cbn [rbind].
        rewrite bind_print. unfold write_file. unfold bind at 1 2, lift at 1.
        rewrite D. reflexivity.
      * cbn [logged trace]. rewrite T. cbn [logged trace]. same_events.
      * rewrite !writes_print, writes_write, !writes_print, writes_app, W.
        cbn beta iota. rewrite D. reflexivity.
    + eexists _, (_ :: _ :: _ :: evs ++ [_; _]), st.
      split; [|split; [|split; [exact Est|]]].
      * rewrite !bind_print. unfold bind at 1. rewrite E.
        rewrite bind_print. unfold bind at 1, lift at 1. rewrite Est.
        rewrite bind_print. unfold bind at 1, lift at 1.
        rewrite generate_modern_readme_value, J. cbn [rbind].
        rewrite bind_print. unfold write_file. unfold bind at 1 2, lift at 1.
        rewrite D. reflexivity.
      * cbn [logged trace]. rewrite T. cbn [logged trace]. same_events.
      * rewrite !writes_print, writes_app, W. cbn beta iota. rewrite D.
        reflexivity.
    + eexists _, (_ :: _ :: _ :: evs ++ [_; _]), st.
      split; [|split; [|split; [exact Est|]]].
      * rewrite !bind_print. unfold bind at 1. rewrite E.
        rewrite bind_print. unfold bind at 1, lift at 1. rewrite Est.
        rewrite bind_print. unfold bind at 1, lift at 1.
        rewrite generate_modern_readme_value, J. cbn [rbind].
        rewrite bind_print. unfold write_file. unfold bind at 1 2, lift at 1.
        rewrite D. reflexivity.
      * cbn [logged trace]. rewrite T. cbn [logged trace]. same_events.
      * rewrite !writes_print, writes_app, W. cbn beta iota. rewrite D.
        reflexivity.
  - eexists _, (_ :: _ :: evs ++ [_; _]), st.
    split; [|split; [|split; [exact Est|]]].
    + rewrite !bind_print. unfold bind at 1. rewrite E.
      rewrite bind_print. unfold bind at 1, lift at 1. rewrite Est.
      rewrite bind_print. unfold bind at 1, lift at 1.
      rewrite generate_modern_readme_value, J. reflexivity.
    + cbn [logged trace]. rewrite T. cbn [logged trace]. same_events.
    + rewrite !writes_print, writes_app, W. reflexivity.
  - eexists _, (_ :: _ :: evs ++ [_; _]), st.
    split; [|split; [|split; [exact Est|]]].
    + rewrite !bind_print. unfold bind at 1. rewrite E.
      rewrite bind_print. unfold bind at 1, lift at 1. rewrite Est.
      rewrite bind_print. unfold bind at 1, lift at 1.
      rewrite generate_modern_readme_value, J. reflexivity.
    + cbn [logged trace]. rewrite T. cbn [logged trace]. same_events.
    + rewrite !writes_print, writes_app, W. reflexivity.
Qed.

Lemma run_trace w username format_joined template disk fuel s user s1 :
  get_user_info w username
    (say "📊 Fetching user information..."
       (say "🚀 Starting GitHub Profile Stats Generation..." s))
    = (Ok user, s1) ->
  match user with
  | Some (UserObj u) =>
      match get_repositories w username fuel
              (say "📚 Fetching repositories..." s1) with
      | (Ok [], s2) =>
          run w username format_joined template disk fuel s
          = (Ok false, say "❌ Failed to fetch repositories" s2)
      | (Ok (r :: l), s2) =>
          exists s' evs st,
            run w username format_joined template disk fuel s
            = (finish format_joined template disk username u st, s') /\
            trace s' = evs ++ trace s2 /\
            calculate_advanced_stats u (r :: l) = Ok st /\
            writes evs = written format_joined template disk username u st
      | (Raise e, s2) => run w username format_joined template disk fuel s = (Raise e, s2)
      | (Timeout, s2) => run w username format_joined template disk fuel s = (Timeout, s2)
      end
  | _ =>
      run w username format_joined template disk fuel s
      = (Ok false, say "❌ Failed to fetch user information" s1)
  end.
Proof.
  intros U.
  assert (R : run w username format_joined template disk fuel s
              = match user with
                | Some (UserObj u) =>
                    bind (get_repositories w username fuel)
                      (fun repos =>
                         match repos with
                         | [] =>
                             print (LText "❌ Failed to fetch repositories") ;;;
                             ret false
                         | _ =>
                             print (LFound (length repos)) ;;;
                             print (LText "🔍 Analyzing language usage...") ;;;
                             langs <- get_language_stats w username repos ;;
                             print (LText "📈 Calculating advanced statistics...") ;;;
                             stats <- lift (calculate_advanced_stats u repos) ;;
                             print (LText "📝 Generating README content...") ;;;
                             readme_content <-
                               lift (generate_modern_readme username format_joined template
                                       u stats (fst langs) (snd langs)) ;;
                             print (LText "💾 Writing README.md...") ;;;
                             write_file disk "README.md" readme_content ;;;
                             print (LText "✅ Profile README generated successfully!") ;;;
                             print (LText "📊 Stats Summary:") ;;;
                             print (LItem (Z.of_nat (total_repos stats))
                                      "repositories") ;;;
                             print (LItem (total_stars stats) "total stars") ;;;
                             print (LItem (Z.of_nat (length (fst langs)))
                                      "programming languages") ;;;
                             ret true
                         end)
                      (say "📚 Fetching repositories..." s1)
                | _ =>
                    (Ok false, say "❌ Failed to fetch user information" s1)
                end).
  { unfold say in *. unfold run. rewrite !bind_print.
    unfold bind at 1. rewrite U. now destruct user as [[|u]|]. }
  destruct user as [[|u]|]; try exact R.
  destruct (get_repositories w username fuel
              (say "📚 Fetching repositories..." s1))
    as [[[|r l]|e|] s2] eqn:G;
    try (rewrite R; unfold bind at 1; rewrite G; reflexivity).
  destruct (run_tail_trace w username format_joined template disk u (r :: l) s2)
    as (s' & evs & st & E & T & C & W).
  exists s', evs, st. split; [|split; [exact T|split; assumption]].
  rewrite R. unfold bind at 1. rewrite G. exact E.
Qed.

Lemma get_user_info_shape w username s :
  exists user s1 evs,
    get_user_info w username s = (Ok user, s1) /\
    trace s1 = evs ++ trace s /\
    writes evs = [] /\
    (count_gets evs <= 2)%nat /\
    (forall url params,
       In (EvGet url params) evs -> url = user_url username /\ params = None).
Proof.
  unfold get_user_info.
  destruct (make_request_shape w (user_api w) (user_url username) None s)
    as (user & s1 & evs & E & Sh).
  destruct (make_request_effect w (user_api w) (user_url username) None s)
    as (user' & s1' & evs' & E' & F & _).
  rewrite E in E'. injection E' as <- <-.
  assert (evs' = evs).
  { apply (app_inv_tail (trace s)).
    now rewrite <- (eff_trace _ _ _ _ _ F), <- (shape_trace _ _ _ _ Sh). }
  subst evs'. exists user, s1, evs. split; [exact E|].
  split; [exact (shape_trace _ _ _ _ Sh)|].
  split; [exact (shape_writes _ _ _ _ Sh)|].
  split; [exact (proj2 (shape_bounds _ _ _ _ Sh))|].
  exact (eff_only _ _ _ _ _ F).
Qed.

(** X17. When the profile request gives no data or an empty object, [run]
    stops there: it returns [False], the only GETs of the whole run, two at
    most, are addressed to the profile, and no file is written. *)
Theorem run_stops_without_profile (w : World) (username : string)
    (format_joined : string -> Result string)
    (template : string -> User -> Stats -> string -> string)
    (disk : string -> string -> Result unit) (fuel : nat) (s s1 : State)
    (user : option UserJson) :
  get_user_info w username
    (say "📊 Fetching user information..."
       (say "🚀 Starting GitHub Profile Stats Generation..." s))
    = (Ok user, s1) ->
  user = None \/ user = Some UserEmpty ->
  exists s' evs,
    run w username format_joined template disk fuel s = (Ok false, s') /\
    trace s' = evs ++ trace s /\
    (forall url params,
       In (EvGet url params) evs -> url = user_url username /\ params = None) /\
    (count_gets evs <= 2)%nat /\
    writes evs = [].
Proof.
  intros U Hu.
  pose proof (run_trace w username format_joined template disk fuel s user s1 U) as R.
  destruct (get_user_info_shape w username
              (say "📊 Fetching user information..."
                 (say "🚀 Starting GitHub Profile Stats Generation..." s)))
    as (user' & s1' & evs & E & T & W & C & G).
  rewrite U in E. injection E as <- <-.
  assert (R' : run w username format_joined template disk fuel s
               = (Ok false, say "❌ Failed to fetch user information" s1))
    by (destruct Hu as [-> | ->]; exact R).
  eexists _, (EvPrint _ :: evs ++ [EvPrint _; EvPrint _]).
  split; [exact R'|]. split.
  { cbn [say logged trace]. rewrite T. cbn [say logged trace].
    rewrite <- app_comm_cons, <- app_assoc. reflexivity. }
  split.
  { intros url params [Hin|Hin]; [discriminate|].
    apply in_app_iff in Hin as [Hin|[Hin|[Hin|[]]]]; try discriminate.
    exact (G url params Hin). }
  split.
  { unfold count_gets in *. cbn [List.filter is_get].
    rewrite List.filter_app, length_app. cbn. lia. }
  cbn [writes flat_map app].
  fold (writes (evs ++ [EvPrint (LText "📊 Fetching user information...");
                        EvPrint (LText "🚀 Starting GitHub Profile Stats Generation...")])).
  rewrite writes_app, W. reflexivity.
Qed.

Lemma run_stops_without_profile_witness :
  exists s' evs,
    run paged_world "octocat" sample_joined plain_template good_disk 3 initial = (Ok false, s') /\
    trace s' = evs ++ [] /\
    (forall url params,
       In (EvGet url params) evs ->
       url = user_url "octocat" /\ params = None) /\
    (count_gets evs <= 2)%nat /\
    writes evs = [].
Proof.
  exact (run_stops_without_profile paged_world "octocat" sample_joined plain_template good_disk 3
           initial _ _ eq_refl (or_introl eq_refl)).
Defined.

Lemma get_repositories_quiet w username fuel s repos s' :
  get_repositories w username fuel s = (Ok repos, s') ->
  exists evs, trace s' = evs ++ trace s /\ writes evs = [].
Proof.
  intros E. unfold get_repositories in E.
  apply repositories_loop_requests in E as (n & evs & _ & T & _ & W & _).
  now exists evs.
Qed.

(** X18. A run that returns [True] has written [README.md] exactly once,
    with the template applied to the profile fetched, to the statistics of
    the repositories fetched and to the formatted date of the profile; a run
    that returns [False] has written no file. *)
Theorem run_writes_readme_once (w : World) (username : string)
    (format_joined : string -> Result string)
    (template : string -> User -> Stats -> string -> string)
    (disk : string -> string -> Result unit) (fuel : nat)
    (s s' : State) (b : bool) :
  run w username format_joined template disk fuel s = (Ok b, s') ->
  exists evs,
    trace s' = evs ++ trace s /\
    if b then
      exists u s1 repos s2 st joined,
        get_user_info w username
          (say "📊 Fetching user information..."
             (say "🚀 Starting GitHub Profile Stats Generation..." s))
          = (Ok (Some (UserObj u)), s1) /\
        get_repositories w username fuel
          (say "📚 Fetching repositories..." s1) = (Ok repos, s2) /\
        repos <> [] /\
        calculate_advanced_stats u repos = Ok st /\
        format_joined (replace_Z (user_created_at u)) = Ok joined /\
        writes evs = [("README.md", template username u st joined)]
    else writes evs = [].
Proof.
  intros R.
  destruct (get_user_info_shape w username
              (say "📊 Fetching user information..."
                 (say "🚀 Starting GitHub Profile Stats Generation..." s)))
    as (user & s1 & evsU & U & TU & WU & _ & _).
  pose proof (run_trace w username format_joined template disk fuel s user s1
                U) as RT.
  assert (Hhead : writes (evsU ++
              [EvPrint (LText "📊 Fetching user information...");
               EvPrint (LText "🚀 Starting GitHub Profile Stats Generation...")])
            = []).
  { now rewrite writes_app, WU. }
  assert (Hfail : forall t,
            run w username format_joined template disk fuel s
            = (Ok false, say t s1) ->
            exists evs,
              trace s' = evs ++ trace s /\
              (if b then False else writes evs = [])).
  { intros t Rf. rewrite Rf in R. injection R as <- <-.
    exists (EvPrint (LText t) :: evsU ++
              [EvPrint (LText "📊 Fetching user information...");
               EvPrint (LText "🚀 Starting GitHub Profile Stats Generation...")]).
    split.
    - cbn [say logged trace]. rewrite TU. cbn [say logged trace].
      same_events.
    - rewrite writes_print. exact Hhead. }
  assert (Hweaken : forall P : list Event -> Prop,
            (exists evs,
               trace s' = evs ++ trace s /\
               (if b then False else writes evs = [])) ->
            exists evs,
              trace s' = evs ++ trace s /\
              if b then P evs else writes evs = []).
  { intros P (evs & T & H). exists evs. split; [exact T|].
    destruct b; [contradiction|exact H]. }
  destruct user as [[|u]|]; try (apply Hweaken; eapply Hfail; exact RT).
  destruct (get_repositories w username fuel
              (say "📚 Fetching repositories..." s1))
    as [[[|r l]|e|] s2] eqn:G.
  - rewrite RT in R. injection R as <- <-.
    destruct (get_repositories_quiet _ _ _ _ _ _ G) as (evsR & TR & WR).
    exists (EvPrint (LText "❌ Failed to fetch repositories") :: evsR ++
              EvPrint (LText "📚 Fetching repositories...") :: evsU ++
              [EvPrint (LText "📊 Fetching user information...");
               EvPrint (LText "🚀 Starting GitHub Profile Stats Generation...")]).
    split.
    + cbn [say logged trace]. rewrite TR. cbn [say logged trace].
      rewrite TU. cbn [say logged trace]. same_events.
    + rewrite writes_print, writes_app, WR, writes_print. exact Hhead.
  - destruct RT as (s'' & evsT & st & R' & TT & C & WT).
    rewrite R' in R. injection R as Hfin <-.
    apply finish_ok_inv in Hfin as (-> & joined & J & Hw).
    destruct (get_repositories_quiet _ _ _ _ _ _ G) as (evsR & TR & WR).
    exists (evsT ++ evsR ++
              EvPrint (LText "📚 Fetching repositories...") :: evsU ++
              [EvPrint (LText "📊 Fetching user information...");
               EvPrint (LText "🚀 Starting GitHub Profile Stats Generation...")]).
    split.
    + rewrite TT, TR. cbn [say logged trace]. rewrite TU.
      cbn [say logged trace]. same_events.
    + exists u, s1, (r :: l), s2, st, joined.
      split; [exact U|]. split; [exact G|]. split; [discriminate|].
      split; [exact C|]. split; [exact J|].
      rewrite !writes_app, WT, WR, writes_print, Hhead, Hw. reflexivity.
  - rewrite RT in R. discriminate.
  - rewrite RT in R. discriminate.
Qed.

Lemma run_writes_readme_once_witness :
  exists evs,
    trace (snd (run flaky_world "octocat" sample_joined plain_template
                  good_disk 3 initial))
      = evs ++ [] /\
    exists u s1 repos s2 st joined,
      get_user_info flaky_world "octocat"
        (say "📊 Fetching user information..."
           (say "🚀 Starting GitHub Profile Stats Generation..." initial))
        = (Ok (Some (UserObj u)), s1) /\
      get_repositories flaky_world "octocat" 3
        (say "📚 Fetching repositories..." s1) = (Ok repos, s2) /\
      repos <> [] /\
      calculate_advanced_stats u repos = Ok st /\
      sample_joined (replace_Z (user_created_at u)) = Ok joined /\
      writes evs = [("README.md", plain_template "octocat" u st joined)].
Proof.
  assert (R : run flaky_world "octocat" sample_joined plain_template good_disk
                3 initial
              = (Ok true,
                 snd (run flaky_world "octocat" sample_joined plain_template
                        good_disk 3 initial)))
    by (vm_compute; reflexivity).
  exact (run_writes_readme_once flaky_world "octocat" sample_joined
           plain_template good_disk 3 initial _ true R).
Defined.



(** ** Contribution statistics *)

Lemma result_filter_dated (parse : string -> Result Z) (cy : Z) l :
  Forall (dated parse) l ->
  result_filter (in_current_year parse cy) l
  = Ok (List.filter (this_year parse cy) l).
Proof.
  induction 1 as [|e l [y Hy] _ IH]; cbn [result_filter List.filter];
    [reflexivity|].
  unfold in_current_year at 1, this_year at 1. rewrite Hy. cbn [rbind].
  rewrite IH. reflexivity.
Qed.

Lemma result_filter_raises (parse : string -> Result Z) (cy : Z) pre e post exn :
  Forall (dated parse) pre ->
  parse (replace_Z (event_created_at e)) = Raise exn ->
  result_filter (in_current_year parse cy) (pre ++ e :: post) = Raise exn.
Proof.
  intros Hpre He.
  induction Hpre as [|x pre [y Hy] _ IH]; cbn [app result_filter].
  - unfold in_current_year at 1. now rewrite He.
  - unfold in_current_year at 1. rewrite Hy. cbn [rbind]. now rewrite IH.
Qed.

(** X20. When the parser accepts the date of every event of the answer,
    [get_contribution_stats] returns the number of events it places in the
    current year, at most the number of events of that one answer; an
    answer without data, or empty, gives 0. Nothing happens after the
    request. *)
Theorem get_contribution_stats_counts (w : World) (username : string)
    (events_api : nat -> Outcome (list ActivityEvent))
    (parse : string -> Result Z) (current_year : Z) (s s1 : State)
    (data : option (list ActivityEvent)) :
  make_request w events_api (events_url username) None s = (Ok data, s1) ->
  Forall (dated parse) (event_items data) ->
  get_contribution_stats w username events_api parse current_year s
  = (Ok (length (List.filter (this_year parse current_year)
                   (event_items data))), s1) /\
  (length (List.filter (this_year parse current_year) (event_items data))
   <= length (event_items data))%nat.
Proof.
  intros E Hall. split; [|apply List.filter_length_le].
  unfold get_contribution_stats, bind. rewrite E.
  destruct data as [[|e l]|]; try reflexivity.
  unfold lift. cbn [event_items] in *.
  now rewrite (result_filter_dated parse current_year (e :: l) Hall).
Qed.

Lemma get_contribution_stats_counts_witness :
  fst (get_contribution_stats paged_world "octocat" dated_feed sample_year
         2024 initial) = Ok 2%nat.
Proof.
  refine (f_equal fst
    (proj1 (get_contribution_stats_counts paged_world "octocat" dated_feed
              sample_year 2024 initial _ _ eq_refl _))).
  repeat constructor; eexists; reflexivity.
Defined.

(** X21. A date the parser rejects is not caught: the exception raised for
    the first such event leaves [get_contribution_stats], once the request
    has been made. *)
Theorem get_contribution_stats_raises (w : World) (username : string)
    (events_api : nat -> Outcome (list ActivityEvent))
    (parse : string -> Result Z) (current_year : Z) (s s1 : State)
    (pre post : list ActivityEvent) (e : ActivityEvent) (exn : Exn) :
  make_request w events_api (events_url username) None s
    = (Ok (Some (pre ++ e :: post)), s1) ->
  Forall (dated parse) pre ->
  parse (replace_Z (event_created_at e)) = Raise exn ->
  get_contribution_stats w username events_api parse current_year s
  = (Raise exn, s1).
Proof.
  intros E Hpre He. unfold get_contribution_stats, bind. rewrite E.
  assert (R : result_filter (in_current_year parse current_year)
                (pre ++ e :: post) = Raise exn)
    by now apply result_filter_raises.
  destruct (pre ++ e :: post) as [|x l] eqn:Hl.
  - now destruct pre.
  - unfold lift. now rewrite R.
Qed.

Lemma get_contribution_stats_raises_witness :
  fst (get_contribution_stats paged_world "octocat" broken_feed sample_year
         2024 initial) = Raise (ValueError "yesterday").
Proof.
  refine (f_equal fst
    (get_contribution_stats_raises paged_world "octocat" broken_feed
       sample_year 2024 initial _
       [mkActivityEvent "2024-05-01T10:00:00Z"]
       [mkActivityEvent "2024-01-01T00:00:00Z"]
       (mkActivityEvent "yesterday") _ eq_refl _ eq_refl)).
  repeat constructor. eexists. reflexivity.
Defined.

Lemma replace_Z_app (a b : string) :
  replace_Z (a +:+ b) = replace_Z a +:+ replace_Z b.
Proof.
  induction a as [|c a IH]; [reflexivity|].
  rewrite app_String. cbn [replace_Z]. rewrite IH.
  destruct (Ascii.eqb c "Z"); reflexivity.
Qed.

Lemma contains_Z_cons (c : ascii) (s : string) :
  contains "Z" (String c s) = Ascii.eqb c "Z" || contains "Z" s.
Proof.
  cbn [contains String.prefix].
  destruct (ascii_dec "Z" c) as [<-|Hne].
  - now destruct s.
  - destruct (Ascii.eqb_spec c "Z"); [congruence|reflexivity].
Qed.

(** X22. Before a date is parsed every capital Z in it is replaced by
    [+00:00]: the text handed to the parser has no Z left, a date without Z
    is handed over unchanged, and one that ends in its only Z is handed over
    with [+00:00] in its place. *)
Theorem replace_Z_spec (s : string) :
  contains "Z" (replace_Z s) = false /\
  (contains "Z" s = false -> replace_Z s = s) /\
  (contains "Z" s = false -> replace_Z (s +:+ "Z") = s +:+ "+00:00").
Proof.
  split; [|split].
  - induction s as [|c s IH]; [reflexivity|]. cbn [replace_Z].
    destruct (Ascii.eqb c "Z") eqn:E.
    + change ("+00:00" +:+ replace_Z s)
        with (String "+" (String "0" (String "0" (String ":"
               (String "0" (String "0" (replace_Z s))))))).
      rewrite !contains_Z_cons, IH. reflexivity.
    + now rewrite contains_Z_cons, E, IH.
  - induction s as [|c s IH]; [reflexivity|].
    rewrite contains_Z_cons. intros H. apply orb_false_iff in H as [E H].
    cbn [replace_Z]. rewrite E. now rewrite IH.
  - intros H. rewrite replace_Z_app.
    assert (Hs : replace_Z s = s).
    { revert H. induction s as [|c s IH]; [reflexivity|].
      rewrite contains_Z_cons. intros H. apply orb_false_iff in H as [E H].
      cbn [replace_Z]. rewrite E. now rewrite IH. }
    now rewrite Hs.
Qed.

Lemma replace_Z_spec_witness :
  replace_Z ("2024-05-01T10:00:00" +:+ "Z") = "2024-05-01T10:00:00+00:00".
Proof.
  exact (proj2 (proj2 (replace_Z_spec "2024-05-01T10:00:00")) eq_refl).
Defined.
